(** * Sales analytics pipeline: a shallow embedding of
      [Sales_Analytics_Pipeline.py] and the properties of its stages.

    The notebook works on pandas data frames.  A data frame is modelled as
    the list of its rows, in row order, with the fixed schema of the
    transaction records; a cell that pandas reports as null (None, NaN,
    NaT) is [None]; a column has the type of the schema whatever cells of
    it are null.  Monetary columns are float64 in the notebook: they are
    modelled as exact rationals, so binary rounding error is outside the
    model, and the statements about amounts say which sum or rounding a
    cell holds rather than compare sums taken in different orders.
    Library calls (groupby, sort_values, cut, round, idxmax ...) are
    modelled by their documented behaviour on such tables, and the
    statements of the notebook that can raise (the date conversion,
    [idxmax], the prints that index a table) raise in the model too. *)

From Stdlib Require Import ZArith QArith Qround List Bool Lia Lqa.
From Stdlib Require Import String Ascii DecimalString DecimalNat FinFun.
From Stdlib Require Import Permutation Sorted OrdersEx.
Import ListNotations.

Local Open Scope Z_scope.
Local Open Scope Q_scope.

(** ** Exceptions *)

(** The exceptions of the modelled calls: a failed date conversion and
    [idxmax] of an empty series raise ValueError, a column or row label
    that does not exist KeyError, a position past the end of an index
    IndexError. *)
Inductive exn : Type :=
| ValueError
| KeyError
| IndexError.

Inductive result (A : Type) : Type :=
| Ok (a : A)
| Raise (e : exn).
Arguments Ok {A} a.
Arguments Raise {A} e.

Definition bind {A B : Type} (r : result A) (k : A -> result B) : result B :=
  match r with
  | Ok a => k a
  | Raise e => Raise e
  end.

Notation "x <- c ;; k" := (bind c (fun x => k))
  (at level 61, c at next level, right associativity).

(** ** Exact arithmetic on amounts *)

Definition Qltb (x y : Q) : bool := negb (Qle_bool y x).

(** [numpy.rint]: nearest integer, ties to the even one. *)
Definition rint (q : Q) : Z :=
  let f := Qfloor q in
  match Qcompare (q - inject_Z f) (1 # 2) with
  | Lt => f
  | Gt => (f + 1)%Z
  | Eq => if Z.even f then f else (f + 1)%Z
  end.

(** [x.round(2)] as numpy computes it: [rint(x * 100) / 100]. *)
Definition round2 (q : Q) : Q := inject_Z (rint (q * 100)) / 100.

(** Sum and count of a column with [skipna=True], the pandas default. *)
Fixpoint sum_skipna (col : list (option Q)) : Q :=
  match col with
  | [] => 0
  | Some v :: rest => v + sum_skipna rest
  | None :: rest => sum_skipna rest
  end.

Fixpoint count_notna {A : Type} (col : list (option A)) : nat :=
  match col with
  | [] => O
  | Some _ :: rest => S (count_notna rest)
  | None :: rest => count_notna rest
  end.

Definition Qnat (n : nat) : Q := inject_Z (Z.of_nat n).

(** Float division as pandas performs it on a column: no exception, a zero
    divisor gives a non-finite value ([None] stands for NaN and the
    infinities alike). *)
Definition float_div (x : Q) (n : nat) : option Q :=
  match n with
  | O => None
  | S _ => Some (x / Qnat n)
  end.

(** [Series.mean()]: NaN on a column without values. *)
Definition mean_skipna (col : list (option Q)) : option Q :=
  float_div (sum_skipna col) (count_notna col).

(** ** Timestamps *)

Record datetime : Type := mkDatetime {
  dt_year : Z;
  dt_month : Z;
  dt_day : Z;
  dt_hour : Z;
  dt_minute : Z;
  dt_second : Z
}.

Definition lex (c1 c2 : comparison) : comparison :=
  match c1 with
  | Eq => c2
  | _ => c1
  end.

Definition datetime_compare (a b : datetime) : comparison :=
  lex (dt_year a ?= dt_year b)%Z
  (lex (dt_month a ?= dt_month b)%Z
  (lex (dt_day a ?= dt_day b)%Z
  (lex (dt_hour a ?= dt_hour b)%Z
  (lex (dt_minute a ?= dt_minute b)%Z
       (dt_second a ?= dt_second b)%Z)))).

Definition datetime_max (a b : datetime) : datetime :=
  match datetime_compare a b with
  | Lt => b
  | _ => a
  end.

(** Days since 1970-01-01 in the proleptic Gregorian calendar. *)
Definition days_from_civil (y m d : Z) : Z :=
  let y' := if (m <=? 2)%Z then (y - 1)%Z else y in
  let era := (y' / 400)%Z in
  let yoe := (y' - era * 400)%Z in
  let mp := ((m + 9) mod 12)%Z in
  let doy := ((153 * mp + 2) / 5 + d - 1)%Z in
  let doe := (yoe * 365 + yoe / 4 - yoe / 100 + doy)%Z in
  (era * 146097 + doe - 719468)%Z.

(** [Series.dt.day_name()]. *)
Definition day_name (t : datetime) : string :=
  match ((days_from_civil (dt_year t) (dt_month t) (dt_day t) + 3) mod 7)%Z with
  | 0%Z => "Monday"
  | 1%Z => "Tuesday"
  | 2%Z => "Wednesday"
  | 3%Z => "Thursday"
  | 4%Z => "Friday"
  | 5%Z => "Saturday"
  | _ => "Sunday"
  end%string.

(** ** Transaction records *)

(** A cell of the [transaction_date] column: the generator writes a string,
    [pd.to_datetime] replaces it by a timestamp (or NaT). *)
Inductive date_cell : Type :=
| DateStr (s : string)
| DateTs (t : datetime)
| DateNull.

Record transaction : Type := mkTransaction {
  transaction_id : option string;
  product_id : option string;
  product_name : option string;
  category : option string;
  quantity : option Z;
  unit_price : option Q;
  total_amount : option Q;
  transaction_date : date_cell;
  customer_id : option string;
  sales_channel : option string;
  payment_method : option string;
  region : option string
}.

Definition isnull {A : Type} (o : option A) : bool :=
  match o with
  | Some _ => false
  | None => true
  end.

Definition date_isnull (c : date_cell) : bool :=
  match c with
  | DateNull => true
  | _ => false
  end.

(** [df.isnull()], column by column in schema order. *)
Definition null_columns : list (transaction -> bool) :=
  [ (fun r => isnull (transaction_id r));
    (fun r => isnull (product_id r));
    (fun r => isnull (product_name r));
    (fun r => isnull (category r));
    (fun r => isnull (quantity r));
    (fun r => isnull (unit_price r));
    (fun r => isnull (total_amount r));
    (fun r => date_isnull (transaction_date r));
    (fun r => isnull (customer_id r));
    (fun r => isnull (sales_channel r));
    (fun r => isnull (payment_method r));
    (fun r => isnull (region r)) ].

Definition count_true {A : Type} (p : A -> bool) (l : list A) : nat :=
  List.length (filter p l).

(** ** Step 2: data quality validation *)

Definition option_string_eqb (a b : option string) : bool :=
  match a, b with
  | Some x, Some y => String.eqb x y
  | None, None => true
  | _, _ => false
  end.

(** [Series.duplicated()]: a row is marked when its value occurred in an
    earlier row (missing values count as equal to each other). *)
Fixpoint duplicated_from (seen : list (option string)) (col : list (option string))
  : list bool :=
  match col with
  | [] => []
  | x :: rest =>
      existsb (option_string_eqb x) seen :: duplicated_from (x :: seen) rest
  end.

Definition duplicated (col : list (option string)) : list bool :=
  duplicated_from [] col.

(** [df['unit_price'] <= 0]: a comparison with NaN is False. *)
Definition price_nonpositive (r : transaction) : bool :=
  match unit_price r with
  | Some p => Qle_bool p 0
  | None => false
  end.

Definition str_of_nat (n : nat) : string :=
  NilZero.string_of_uint (Nat.to_uint n).

Record quality_report : Type := mkReport {
  total_records : nat;
  issues_found : list string;
  data_health_score : Z
}.

Definition append_issue (q : quality_report) (msg : string) : quality_report :=
  mkReport (total_records q) (issues_found q ++ [msg]) (data_health_score q).

Definition decrement_score (q : quality_report) (p : Z) : quality_report :=
  mkReport (total_records q) (issues_found q) (data_health_score q - p)%Z.

Definition missing_data (df : list transaction) : list nat :=
  map (fun col => count_true col df) null_columns.

Definition duplicates (df : list transaction) : nat :=
  count_true (fun b : bool => b) (duplicated (map transaction_id df)).

Definition negative_prices (df : list transaction) : nat :=
  count_true price_nonpositive df.

Definition validate_data_quality (df : list transaction) : quality_report :=
  let q0 := mkReport (List.length df) [] 100%Z in
  let missing := list_sum (missing_data df) in
  let q1 :=
    if (0 <? missing)%nat
    then decrement_score
           (append_issue q0 ("Missing values: " ++ str_of_nat missing)%string) 10
    else q0 in
  let q2 :=
    if (0 <? duplicates df)%nat
    then decrement_score
           (append_issue q1 ("Duplicate IDs: " ++ str_of_nat (duplicates df))%string) 15
    else q1 in
  let q3 :=
    if (0 <? negative_prices df)%nat
    then decrement_score
           (append_issue q2 ("Invalid prices: " ++ str_of_nat (negative_prices df))%string) 20
    else q2 in
  q3.

(** ** Library operations on tables *)

Section GroupBy.
Context {K V : Type}.
Variable cmp : K -> K -> comparison.

(** Put row [r] at the front of the group of key [k]; groups are kept in
    ascending key order ([sort=True], the pandas default). *)
Fixpoint add_row (k : K) (r : V) (gs : list (K * list V)) : list (K * list V) :=
  match gs with
  | [] => [(k, [r])]
  | (k', rows) :: rest =>
      match cmp k k' with
      | Eq => (k', r :: rows) :: rest
      | Lt => (k, [r]) :: gs
      | Gt => (k', rows) :: add_row k r rest
      end
  end.

(** [df.groupby(key)]: one group per distinct key, keys ascending, the rows
    of a group in frame order; rows whose key is null belong to no group
    ([dropna=True]). *)
Fixpoint groupby (key : V -> option K) (df : list V) : list (K * list V) :=
  match df with
  | [] => []
  | r :: rest =>
      match key r with
      | Some k => add_row k r (groupby key rest)
      | None => groupby key rest
      end
  end.

(** Aggregate every group. *)
Definition agg {R : Type} (f : list V -> R) (gs : list (K * list V)) : list (K * R) :=
  map (fun g => (fst g, f (snd g))) gs.
(** The rows that have a key. *)
Definition keyed (key : V -> option K) (df : list V) : list V :=
  filter (fun r => negb (isnull (key r))) df.

Definition key_lt (a b : K) : Prop := cmp a b = Lt.

Definition has_key (key : V -> option K) (k : K) (r : V) : bool :=
  match key r with
  | Some k' => match cmp k k' with Eq => true | _ => false end
  | None => false
  end.

(** The rows filed under key [k]. *)
Fixpoint rows_of (k : K) (gs : list (K * list V)) : list V :=
  match gs with
  | [] => []
  | (k', rows) :: rest =>
      match cmp k k' with
      | Eq => rows
      | _ => rows_of k rest
      end
  end.
End GroupBy.

Section Sorting.
Context {A : Type}.
Variable val : A -> Q.

Fixpoint insert_desc (x : A) (l : list A) : list A :=
  match l with
  | [] => [x]
  | y :: rest => if Qltb (val x) (val y) then y :: insert_desc x rest else x :: l
  end.

(** [sort_values(by, ascending=False)].  The default sort kind is
    'quicksort', which numpy runs as an insertion sort on the short tables
    of this notebook; rows with equal values then keep the order of the
    table that is sorted.  pandas promises that order for no table, and
    the properties below use only that the result is the table rearranged
    in descending order of the value. *)
Fixpoint sort_values_desc (l : list A) : list A :=
  match l with
  | [] => []
  | x :: rest => insert_desc x (sort_values_desc rest)
  end.
End Sorting.

(** [df.head(n)]. *)
Definition head {A : Type} (n : nat) (l : list A) : list A := firstn n l.

(** The values of a column that are not null. *)
Fixpoint dropna {A : Type} (col : list (option A)) : list A :=
  match col with
  | [] => []
  | Some v :: rest => v :: dropna rest
  | None :: rest => dropna rest
  end.

(** [Series.nunique()]: number of distinct values, nulls left out. *)
Definition nunique (col : list (option string)) : nat :=
  List.length (nodup string_dec (dropna col)).

Fixpoint idxmax_from {K : Type} (best : K * Q) (l : list (K * Q)) : K :=
  match l with
  | [] => fst best
  | kv :: rest =>
      if Qltb (snd best) (snd kv) then idxmax_from kv rest else idxmax_from best rest
  end.

(** [Series.idxmax()]: label of the first maximum; ValueError on an empty
    series. *)
Definition idxmax {K : Type} (s : list (K * Q)) : result K :=
  match s with
  | [] => Raise ValueError
  | kv :: rest => Ok (idxmax_from kv rest)
  end.

(** [series.index[0]] and [series.iloc[0]]: IndexError on an empty
    series. *)
Definition first_label {K V : Type} (s : list (K * V)) : result K :=
  match s with
  | [] => Raise IndexError
  | kv :: _ => Ok (fst kv)
  end.

(** [frame.loc[label, column]] on a frame indexed by booleans: KeyError
    when no row has the label. *)
Fixpoint loc {V : Type} (label : bool) (tbl : list (bool * V)) : result V :=
  match tbl with
  | [] => Raise KeyError
  | (k, v) :: rest => if Bool.eqb label k then Ok v else loc label rest
  end.

Inductive edge : Type :=
| Fin (q : Q)
| PosInf.

Definition edge_ltb (e : edge) (x : Q) : bool :=
  match e with
  | Fin q => Qltb q x
  | PosInf => false
  end.

(** [bins.searchsorted(x, side='left')] on ascending [bins]. *)
Definition searchsorted_left (bins : list edge) (x : Q) : nat :=
  List.length (filter (fun e => edge_ltb e x) bins).

(** [pd.cut(x, bins, labels)] with [right=True], [include_lowest=False]:
    bin [i] is [(bins[i-1], bins[i]]]; a value in no bin, or null, gives
    NaN. *)
Definition cut (bins : list edge) (labels : list string) (x : option Q) : option string :=
  match x with
  | None => None
  | Some v =>
      let ids := searchsorted_left bins v in
      if (ids =? 0)%nat || (ids =? List.length bins)%nat
      then None
      else nth_error labels (ids - 1)
  end.

(** Key orders used by the group-by calls. *)
Definition str_cmp : string -> string -> comparison := String_as_OT.compare.
Definition bool_cmp (a b : bool) : comparison :=
  match a, b with
  | false, true => Lt
  | true, false => Gt
  | _, _ => Eq
  end.
Definition pair_cmp (a b : Z * Z) : comparison :=
  lex (fst a ?= fst b)%Z (snd a ?= snd b)%Z.
Definition date_cmp (a b : Z * Z * Z) : comparison :=
  lex (pair_cmp (fst a) (fst b)) (snd a ?= snd b)%Z.

(** ** Step 3: transformation *)

(** What [pd.to_datetime] makes of one string of the column: a timestamp,
    NaT (for the empty string and the like), or an error.  The parser
    belongs to pandas and is a parameter of the pipeline: [parse s] is the
    reading of [s] under the format the column is read with. *)
Inductive parsed : Type :=
| Timestamp (t : datetime)
| NaT
| Unparseable.

Definition to_datetime_cell (parse : string -> parsed) (c : date_cell) : result date_cell :=
  match c with
  | DateStr s =>
      match parse s with
      | Timestamp t => Ok (DateTs t)
      | NaT => Ok DateNull
      | Unparseable => Raise ValueError
      end
  | DateTs t => Ok (DateTs t)
  | DateNull => Ok DateNull
  end.

(** [pd.to_datetime(column)] with [errors='raise']. *)
Fixpoint to_datetime (parse : string -> parsed) (col : list date_cell)
  : result (list date_cell) :=
  match col with
  | [] => Ok []
  | c :: rest =>
      c' <- to_datetime_cell parse c ;;
      rest' <- to_datetime parse rest ;;
      Ok (c' :: rest')
  end.

Definition set_transaction_date (r : transaction) (c : date_cell) : transaction :=
  mkTransaction (transaction_id r) (product_id r) (product_name r) (category r)
    (quantity r) (unit_price r) (total_amount r) c (customer_id r)
    (sales_channel r) (payment_method r) (region r).

(** [df['transaction_date'] = col]: the frame is updated in place. *)
Fixpoint assign_transaction_date (df : list transaction) (col : list date_cell)
  : list transaction :=
  match df, col with
  | r :: df', c :: col' => set_transaction_date r c :: assign_transaction_date df' col'
  | _, _ => []
  end.

Record enriched : Type := mkEnriched {
  base : transaction;
  year : option Z;
  month : option Z;
  day : option Z;
  hour : option Z;
  day_of_week : option string;
  revenue_category : option string;
  is_weekend : option bool      (* [None] until step 5 adds the column *)
}.

(** The [.dt] accessor reads timestamps; NaT gives NaN. *)
Definition dt (c : date_cell) : option datetime :=
  match c with
  | DateTs t => Some t
  | _ => None
  end.

Definition revenue_bins : list edge := [Fin 0; Fin 100; Fin 500; Fin 1000; PosInf].
Definition revenue_labels : list string := ["Low"; "Medium"; "High"; "Premium"]%string.

Definition enrich (r : transaction) : enriched :=
  let ts := dt (transaction_date r) in
  mkEnriched r
    (option_map dt_year ts) (option_map dt_month ts) (option_map dt_day ts)
    (option_map dt_hour ts) (option_map day_name ts)
    (cut revenue_bins revenue_labels (total_amount r))
    None.

Definition amount (e : enriched) : option Q := total_amount (base e).
Definition amounts (rows : list enriched) : list (option Q) := map amount rows.

Record customer_agg : Type := mkCustomerAgg {
  total_spent : Q;
  order_count : nat;
  last_purchase : option datetime;
  avg_order_value : option Q
}.

(** [max] of a timestamp column, NaT left out. *)
Definition max_datetime (col : list (option datetime)) : option datetime :=
  match dropna col with
  | [] => None
  | t :: rest => Some (fold_left datetime_max rest t)
  end.

(** One row of [customer_stats] before the segment column: sum and count
    of [total_amount] (count leaves nulls out), latest purchase, rounded to
    two decimals, then the average order value. *)
Definition aggregate_customer (rows : list enriched) : customer_agg :=
  let total := round2 (sum_skipna (amounts rows)) in
  let count := count_notna (amounts rows) in
  mkCustomerAgg total count
    (max_datetime (map (fun e => dt (transaction_date (base e))) rows))
    (option_map round2 (float_div total count)).

Definition categorize_customer (row : customer_agg) : string :=
  if Qltb 2000 (total_spent row) && (10 <? order_count row)%nat then "VIP"
  else if Qltb 1000 (total_spent row) || (5 <? order_count row)%nat then "Regular"
  else "New".

Record customer_row : Type := mkCustomerRow {
  stats : customer_agg;
  segment : string
}.

(** [customer_stats], indexed by customer_id. *)
Definition customer_stats (df_transformed : list enriched) : list (string * customer_row) :=
  let grouped :=
    agg aggregate_customer
        (groupby str_cmp (fun e => customer_id (base e)) df_transformed) in
  map (fun kv => (fst kv, mkCustomerRow (snd kv) (categorize_customer (snd kv)))) grouped.

(** ** Step 4: key performance indicators *)

Module KPI.
Definition total_revenue (df : list enriched) : Q := sum_skipna (amounts df).
Definition total_transactions (df : list enriched) : nat := List.length df.
Definition avg_order_value (df : list enriched) : option Q := mean_skipna (amounts df).
Definition unique_customers (df : list enriched) : nat :=
  nunique (map (fun e => customer_id (base e)) df).
End KPI.

(** [df.groupby(key)['total_amount'].sum()]. *)
Definition revenue_by {K : Type} (cmp : K -> K -> comparison)
    (key : enriched -> option K) (df : list enriched) : list (K * Q) :=
  agg (fun rows => sum_skipna (amounts rows)) (groupby cmp key df).

Definition revenue_by_category (df : list enriched) : list (string * Q) :=
  sort_values_desc snd (revenue_by str_cmp (fun e => category (base e)) df).

Definition revenue_by_channel (df : list enriched) : list (string * Q) :=
  sort_values_desc snd (revenue_by str_cmp (fun e => sales_channel (base e)) df).

Definition date_key (e : enriched) : option (Z * Z * Z) :=
  match year e, month e, day e with
  | Some y, Some m, Some d => Some (y, m, d)
  | _, _, _ => None
  end.

Definition daily_revenue (df : list enriched) : list (Z * Z * Z * Q) :=
  revenue_by date_cmp date_key df.

(** A 64-bit signed integer: the value of [z] modulo 2^64 in
    [-2^63, 2^63). *)
Definition wrap_int64 (z : Z) : Z :=
  ((z + 2 ^ 63) mod 2 ^ 64 - 2 ^ 63)%Z.

(** The [quantity] column is int64 when no record of the frame lacks its
    quantity, and float64 otherwise. *)
Definition quantity_is_int64 (df : list enriched) : bool :=
  forallb (fun e => negb (isnull (quantity (base e)))) df.

(** The sum of the [quantity] column over a group.  On an int64 column
    every addition wraps around (so the order of the additions does not
    matter); on a float64 column the missing cells are skipped and nothing
    wraps, and the float sum is taken exact, as the sums of amounts are. *)
Fixpoint sum_quantity (int64 : bool) (col : list (option Z)) : Z :=
  match col with
  | [] => 0%Z
  | Some v :: rest =>
      let total := (v + sum_quantity int64 rest)%Z in
      if int64 then wrap_int64 total else total
  | None :: rest => sum_quantity int64 rest
  end.

Record product_row : Type := mkProductRow {
  product_revenue : Q;
  product_quantity : Z
}.

Definition aggregate_product (int64 : bool) (rows : list enriched) : product_row :=
  mkProductRow (sum_skipna (amounts rows))
               (sum_quantity int64 (map (fun e => quantity (base e)) rows)).

(** [df.groupby('product_name').agg({'total_amount': 'sum',
    'quantity': 'sum'})]. *)
Definition products_table (df : list enriched) : list (string * product_row) :=
  agg (aggregate_product (quantity_is_int64 df))
      (groupby str_cmp (fun e => product_name (base e)) df).

Definition by_revenue (kv : string * product_row) : Q := product_revenue (snd kv).

Definition top_products (df : list enriched) : list (string * product_row) :=
  head 5 (sort_values_desc by_revenue (products_table df)).

(** ** Step 5: advanced analytics *)

Definition hourly_sales (df : list enriched) : list (Z * Q) :=
  revenue_by Z.compare hour df.

Definition peak_hour (df : list enriched) : result Z := idxmax (hourly_sales df).

Definition isin (names : list string) (x : option string) : bool :=
  match x with
  | Some s => existsb (String.eqb s) names
  | None => false
  end.

(** [df_transformed['is_weekend'] = ...]: the column is added to the
    enriched frame itself. *)
Definition add_is_weekend (e : enriched) : enriched :=
  mkEnriched (base e) (year e) (month e) (day e) (hour e) (day_of_week e)
    (revenue_category e)
    (Some (isin ["Saturday"; "Sunday"]%string (day_of_week e))).

Definition weekend_performance (df : list enriched) : list (bool * (Q * option Q)) :=
  agg (fun rows => (sum_skipna (amounts rows), mean_skipna (amounts rows)))
      (groupby bool_cmp is_weekend df).

(** Sum, mean and count of revenue and number of distinct customers of a
    group, rounded to two decimals. *)
Record group_stats : Type := mkGroupStats {
  g_sum : Q;
  g_mean : option Q;
  g_count : nat;
  g_customers : nat
}.

Definition aggregate_stats (rows : list enriched) : group_stats :=
  mkGroupStats (round2 (sum_skipna (amounts rows)))
               (option_map round2 (mean_skipna (amounts rows)))
               (count_notna (amounts rows))
               (nunique (map (fun e => customer_id (base e)) rows)).

Definition regional_performance (df : list enriched) : list (string * group_stats) :=
  agg aggregate_stats (groupby str_cmp (fun e => region (base e)) df).

(** ** Step 6: summary tables *)

Definition month_key (e : enriched) : option (Z * Z) :=
  match year e, month e with
  | Some y, Some m => Some (y, m)
  | _, _ => None
  end.

Definition monthly_summary (df : list enriched) : list (Z * Z * group_stats) :=
  agg aggregate_stats (groupby pair_cmp month_key df).

Definition has_keys (e : enriched) : bool :=
  negb (isnull (category (base e))) && negb (isnull (sales_channel (base e))).

Definition in_cell (c ch : string) (e : enriched) : bool :=
  option_string_eqb (category (base e)) (Some c)
  && option_string_eqb (sales_channel (base e)) (Some ch).

(** [pivot_table(index='category', columns='sales_channel',
    values='total_amount', aggfunc='sum', fill_value=0).round(2)]. *)
Definition category_matrix (df : list enriched) : list (string * list (string * Q)) :=
  let rows := filter has_keys df in
  let cats := map fst (groupby str_cmp (fun e => category (base e)) rows) in
  let chans := map fst (groupby str_cmp (fun e => sales_channel (base e)) rows) in
  map (fun c =>
         (c, map (fun ch =>
                    match filter (in_cell c ch) rows with
                    | [] => (ch, 0)
                    | cell => (ch, round2 (sum_skipna (amounts cell)))
                    end) chans)) cats.

Fixpoint lookup {V : Type} (k : string) (tbl : list (string * V)) : option V :=
  match tbl with
  | [] => None
  | (k', v) :: rest => if String.eqb k k' then Some v else lookup k rest
  end.

(** [df_transformed.merge(customer_stats[['segment']], left_on='customer_id',
    right_index=True)]: every transaction with the segment of its
    customer. *)
Fixpoint merge_segment (df : list enriched) (cs : list (string * customer_row))
  : list (enriched * string) :=
  match df with
  | [] => []
  | e :: rest =>
      match customer_id (base e) with
      | Some c =>
          match lookup c cs with
          | Some row => (e, segment row) :: merge_segment rest cs
          | None => merge_segment rest cs
          end
      | None => merge_segment rest cs
      end
  end.

Definition segment_analysis (df : list enriched) (cs : list (string * customer_row))
  : list (string * group_stats) :=
  agg (fun rows => aggregate_stats (map fst rows))
      (groupby str_cmp (fun es => Some (snd es)) (merge_segment df cs)).

(** ** The whole run *)

Record tables : Type := mkTables {
  t_df_transformed : list enriched;
  t_customer_stats : list (string * customer_row);
  t_total_revenue : Q;
  t_total_transactions : nat;
  t_avg_order_value : option Q;
  t_unique_customers : nat;
  t_revenue_by_category : list (string * Q);
  t_revenue_by_channel : list (string * Q);
  t_daily_revenue : list (Z * Z * Z * Q);
  t_top_products : list (string * product_row);
  t_hourly_sales : list (Z * Q);
  t_peak_hour : Z;
  t_weekend_performance : list (bool * (Q * option Q));
  t_regional_performance : list (string * group_stats);
  t_monthly_summary : list (Z * Z * group_stats);
  t_category_matrix : list (string * list (string * Q));
  t_segment_analysis : list (string * group_stats)
}.

(** Steps 3 to 6 on the raw frame whose dates have been converted, in the
    order of the notebook.  Of the print calls those are kept that can
    raise: the top category and the best channel of step 4 are read at
    position 0 of their tables, the weekend and weekday revenue of step 5
    at the labels True and False.  The other prints, the display calls,
    [describe()] and the export summary of step 7 compute no table and
    raise nothing, and are left out. *)
Definition analytics (df_raw : list transaction) : result tables :=
  (* step 3 *)
  let df_transformed := map enrich df_raw in
  let cs := customer_stats df_transformed in
  (* step 4 *)
  let total_revenue := KPI.total_revenue df_transformed in
  let total_transactions := KPI.total_transactions df_transformed in
  let avg_order_value := KPI.avg_order_value df_transformed in
  let unique_customers := KPI.unique_customers df_transformed in
  let by_category := revenue_by_category df_transformed in
  let by_channel := revenue_by_channel df_transformed in
  let daily := daily_revenue df_transformed in
  let top := top_products df_transformed in
  top_category <- first_label by_category ;;
  best_channel <- first_label by_channel ;;
  (* step 5 *)
  let hourly := hourly_sales df_transformed in
  peak <- idxmax hourly ;;
  let df_transformed' := map add_is_weekend df_transformed in
  let weekend := weekend_performance df_transformed' in
  let regional := regional_performance df_transformed' in
  weekend_revenue <- loc true weekend ;;
  weekday_revenue <- loc false weekend ;;
  (* step 6 *)
  let monthly := monthly_summary df_transformed' in
  let matrix := category_matrix df_transformed' in
  let segments := segment_analysis df_transformed' cs in
  Ok (mkTables df_transformed' cs total_revenue total_transactions avg_order_value
        unique_customers by_category by_channel daily top hourly peak
        weekend regional monthly matrix segments).

(** The state of the notebook after a run: the raw frame as the run left
    it, the quality report, and the tables or the exception that stopped
    the run. *)
Record run : Type := mkRun {
  raw_after : list transaction;
  report : quality_report;
  outcome : result tables
}.

Definition run_pipeline (parse : string -> parsed) (df_raw : list transaction) : run :=
  let quality_report := validate_data_quality df_raw in
  match to_datetime parse (map transaction_date df_raw) with
  | Raise e => mkRun df_raw quality_report (Raise e)
  | Ok col =>
      let df_raw' := assign_transaction_date df_raw col in
      mkRun df_raw' quality_report (analytics df_raw')
  end.

(** [pd.DataFrame(sales_data)]: the columns of the frame are the keys of
    the records, so the frame made of an empty list has no column. *)
Inductive frame : Type :=
| NoColumns
| Columns (rows : list transaction).

Definition DataFrame (sales_data : list transaction) : frame :=
  match sales_data with
  | [] => NoColumns
  | _ :: _ => Columns sales_data
  end.

(** The validator on a frame: without columns the count of missing values
    is 0 and [df['transaction_id']] raises KeyError. *)
Definition validate_frame (df : frame) : result quality_report :=
  match df with
  | NoColumns => Raise KeyError
  | Columns rows => Ok (validate_data_quality rows)
  end.

(** The notebook from the list of records step 1 has collected. *)
Definition notebook (parse : string -> parsed) (sales_data : list transaction)
  : result run :=
  let df_raw := DataFrame sales_data in
  quality_report <- validate_frame df_raw ;;
  match df_raw with
  | NoColumns => Raise KeyError
  | Columns rows => Ok (run_pipeline parse rows)
  end.

(** ** A parser for the generator's format *)

Definition digit (c : ascii) : option Z :=
  let n := nat_of_ascii c in
  if (48 <=? n)%nat && (n <=? 57)%nat then Some (Z.of_nat (n - 48)) else None.

Fixpoint number (acc : Z) (cs : list ascii) : option Z :=
  match cs with
  | [] => Some acc
  | c :: rest =>
      match digit c with
      | Some d => number (acc * 10 + d)%Z rest
      | None => None
      end
  end.

Definition leap_year (y : Z) : bool :=
  ((y mod 4 =? 0) && negb (y mod 100 =? 0) || (y mod 400 =? 0))%Z.

Definition days_in_month (y m : Z) : Z :=
  if (m =? 2)%Z then (if leap_year y then 29 else 28)%Z
  else if ((m =? 4) || (m =? 6) || (m =? 9) || (m =? 11))%Z then 30%Z
  else 31%Z.

(** A date of the calendar with a time of day, in the years a pandas
    timestamp can hold whole. *)
Definition valid_datetime (t : datetime) : bool :=
  ((1678 <=? dt_year t) && (dt_year t <=? 2261)
   && (1 <=? dt_month t) && (dt_month t <=? 12)
   && (1 <=? dt_day t) && (dt_day t <=? days_in_month (dt_year t) (dt_month t))
   && (0 <=? dt_hour t) && (dt_hour t <=? 23)
   && (0 <=? dt_minute t) && (dt_minute t <=? 59)
   && (0 <=? dt_second t) && (dt_second t <=? 59))%Z.

(** Reads ["%Y-%m-%d %H:%M:%S"], the format step 1 writes; the empty string
    is NaT.  It stands for the pandas parser on the strings of the sample
    batches, which are all of that format. *)
Definition strptime (s : string) : parsed :=
  match list_ascii_of_string s with
  | [] => NaT
  | [y1; y2; y3; y4; "-"; m1; m2; "-"; d1; d2; " "; h1; h2; ":"; n1; n2; ":"; s1; s2]%char =>
      match number 0 [y1; y2; y3; y4], number 0 [m1; m2], number 0 [d1; d2],
            number 0 [h1; h2], number 0 [n1; n2], number 0 [s1; s2] with
      | Some y, Some m, Some d, Some h, Some n, Some sec =>
          let t := mkDatetime y m d h n sec in
          if valid_datetime t then Timestamp t else Unparseable
      | _, _, _, _, _, _ => Unparseable
      end
  | _ => Unparseable
  end.

(** ** Notions used in the statements *)

(** Some field of the record is null. *)
Definition has_null (r : transaction) : bool :=
  existsb (fun col => col r) null_columns.

(** The fields of a record other than [transaction_date]. *)
Definition other_fields (r : transaction) :=
  (transaction_id r, product_id r, product_name r, category r, quantity r,
   unit_price r, total_amount r, customer_id r, sales_channel r,
   payment_method r, region r).

(** [customer_stats['total_spent'].sum()]. *)
Definition total_spent_sum (cs : list (string * customer_row)) : Q :=
  sum_skipna (map (fun kv => Some (total_spent (stats (snd kv)))) cs).

(** The records of a customer. *)
Definition orders_of (df : list enriched) (c : string) : list enriched :=
  filter (fun e => option_string_eqb (customer_id (base e)) (Some c)) df.



(** The first row of a table. *)
Definition first_row {A : Type} (tbl : list (string * A)) (default : A) : A :=
  match tbl with
  | kv :: _ => snd kv
  | [] => default
  end.

(** ** Sample batches *)

Definition txn (id product cat : string) (qty : Z) (price amt : Q)
    (date customer channel reg : string) : transaction :=
  mkTransaction (Some id) (Some product) (Some product) (Some cat) (Some qty)
    (Some price) (Some amt) (DateStr date) (Some customer) (Some channel)
    (Some "Cash"%string) (Some reg).

(** Two records that trigger exactly the chosen validator checks: a missing
    region, a repeated transaction_id, a zero unit price. *)
Definition probe (missing dup price : bool) : list transaction :=
  [ mkTransaction (Some "TXN1000"%string) (Some "MOUSE007"%string)
      (Some "Gaming Mouse"%string) (Some "Accessories"%string) (Some 1%Z)
      (Some (if price then 0 else 79.99)) (Some 79.99)
      (DateStr "2024-01-15 10:30:00") (Some "CUST1"%string)
      (Some "Online"%string) (Some "Cash"%string)
      (if missing then None else Some "North"%string);
    txn (if dup then "TXN1000" else "TXN1001") "Gaming Mouse" "Accessories"
      1 79.99 79.99 "2024-01-16 11:00:00" "CUST2" "Online" "South" ].

(** Two orders of one customer. *)
Definition two_orders : list transaction :=
  [ txn "TXN1000" "Gaming Mouse" "Accessories" 1 79.99 79.99
      "2024-01-15 10:30:00" "CUST1" "Online" "North";
    txn "TXN1001" "Smart Watch" "Wearables" 2 299.99 599.98
      "2024-01-16 11:00:00" "CUST1" "Mobile App" "North" ].

(** Two customers; the only record of the first has no total_amount. *)
Definition null_amount_batch : list transaction :=
  [ mkTransaction (Some "TXN1000"%string) (Some "MOUSE007"%string)
      (Some "Gaming Mouse"%string) (Some "Accessories"%string) (Some 1%Z)
      (Some 79.99) None (DateStr "2024-01-15 10:30:00")
      (Some "CUST1"%string) (Some "Online"%string) (Some "Cash"%string)
      (Some "North"%string);
    txn "TXN1001" "Gaming Mouse" "Accessories" 1 79.99 79.99
      "2024-01-20 11:00:00" "CUST2" "Online" "South" ].

(** An order of 19.999 on a Friday and one of 10 on a Saturday. *)
Definition sub_cent_batch : list transaction :=
  [ txn "TXN1000" "Gaming Mouse" "Accessories" 1 19.999 19.999
      "2024-01-19 10:30:00" "CUST1" "Online" "North";
    txn "TXN1001" "Gaming Mouse" "Accessories" 1 10 10
      "2024-01-20 11:00:00" "CUST2" "Online" "South" ].


(** Three orders, the last on a Saturday. *)
Definition week_orders : list transaction :=
  [ txn "TXN1000" "Gaming Mouse" "Accessories" 1 79.99 79.99
      "2024-01-15 10:30:00" "CUST1" "Online" "North";
    txn "TXN1001" "Smart Watch" "Wearables" 2 299.99 599.98
      "2024-01-16 11:00:00" "CUST1" "Mobile App" "North";
    txn "TXN1002" "Tablet Air" "Electronics" 1 549.99 549.99
      "2024-01-20 18:45:00" "CUST2" "Online" "South" ].

(** ** Notions used in further statements *)

Definition option_string_dec (a b : option string) : {a = b} + {a <> b}.
Proof. decide equality. apply string_dec. Defined.

(** The value does not occur in [seen]. *)
Definition unseen (seen : list (option string)) (x : option string) : bool :=
  negb (existsb (option_string_eqb x) seen).

(** A unit price that is present is positive. *)
Definition price_ok (r : transaction) : Prop :=
  match unit_price r with
  | Some p => 0 < p
  | None => True
  end.

(** What the statements of steps 3 to 6 that can raise look for in the
    records: a category, a sales channel, a timestamp, a date on a
    Saturday or Sunday. *)
Definition has_category (r : transaction) : bool := negb (isnull (category r)).
Definition has_channel (r : transaction) : bool := negb (isnull (sales_channel r)).
Definition dated (r : transaction) : bool := negb (isnull (dt (transaction_date r))).
Definition on_weekend (r : transaction) : bool :=
  isin ["Saturday"; "Sunday"]%string (option_map day_name (dt (transaction_date r))).
Definition on_weekday (r : transaction) : bool := negb (on_weekend r).

(** The record has both a customer_id and a total_amount. *)
Definition counted (e : enriched) : bool :=
  negb (isnull (customer_id (base e))) && negb (isnull (amount e)).

(** Segments in ascending order of standing. *)
Definition segment_rank (s : string) : nat :=
  if String.eqb s "VIP" then 2
  else if String.eqb s "Regular" then 1
  else 0.

Definition customer_key (e : enriched) : option string := customer_id (base e).

(** The timestamp of an enriched record. *)
Definition purchase_date (e : enriched) : option datetime :=
  dt (transaction_date (base e)).

(** Three comparisons that fit together as those of [a b], [b c] and [a c]
    in an order. *)
Definition coherent (ab bc ac : comparison) : Prop :=
  (ab = Eq -> ac = bc) /\ (bc = Eq -> ac = ab) /\
  (ab = Lt -> bc = Lt -> ac = Lt) /\ (ab = Gt -> bc = Gt -> ac = Gt).

Definition category_key (e : enriched) : option string := category (base e).
Definition channel_key (e : enriched) : option string := sales_channel (base e).

(** What a revenue breakdown by a string key is: one row per key value that
    occurs, each with the revenue of the records of that value, rows in
    descending order of revenue. *)
Definition breakdown (key : enriched -> option string) (df : list enriched)
    (tbl : list (string * Q)) : Prop :=
  StronglySorted (fun a b => snd b <= snd a) tbl /\
  NoDup (map fst tbl) /\
  (forall c, In c (map fst tbl) <-> In (Some c) (map key df)) /\
  tbl = map (fun c =>
               (c, sum_skipna
                     (amounts (filter (fun e => option_string_eqb (key e) (Some c)) df))))
            (map fst tbl).

(** The records whose key is [k], for a key with the equality test
    [eqb]. *)
Definition key_is {K : Type} (eqb : K -> K -> bool) (key : enriched -> option K)
    (k : K) (e : enriched) : bool :=
  match key e with
  | Some k' => eqb k k'
  | None => false
  end.

Definition date_eqb (a b : Z * Z * Z) : bool :=
  ((fst (fst a) =? fst (fst b)) && (snd (fst a) =? snd (fst b)) && (snd a =? snd b))%Z.

(** What a revenue table over the time of the records is: one row per key
    value that occurs, keys strictly ascending, each row with the revenue
    of the records of that value. *)
Definition time_table {K : Type} (lt : K -> K -> Prop) (eqb : K -> K -> bool)
    (key : enriched -> option K) (df : list enriched) (tbl : list (K * Q)) : Prop :=
  StronglySorted lt (map fst tbl) /\
  (forall k, In k (map fst tbl) <-> In (Some k) (map key df)) /\
  tbl = map (fun k => (k, sum_skipna (amounts (filter (key_is eqb key k) df))))
            (map fst tbl).

(** The side of the weekend split a record is on. *)
Definition weekend_day (e : enriched) : bool :=
  isin ["Saturday"; "Sunday"]%string (day_of_week e).

Definition side (b : bool) (df : list enriched) : list enriched :=
  filter (fun e => Bool.eqb (weekend_day e) b) df.

(** ** Step 1: data generation *)

Record product : Type := mkProduct {
  p_id : string;
  p_name : string;
  p_category : string;
  p_price : Q
}.

Definition products : list product :=
  [ mkProduct "LAPTOP001" "Gaming Laptop Pro" "Electronics" 1299.99;
    mkProduct "PHONE002" "Smartphone X1" "Electronics" 899.99;
    mkProduct "HEADSET003" "Wireless Headphones" "Audio" 199.99;
    mkProduct "TABLET004" "Tablet Air" "Electronics" 549.99;
    mkProduct "WATCH005" "Smart Watch" "Wearables" 299.99;
    mkProduct "KEYBOARD006" "Mechanical Keyboard" "Accessories" 149.99;
    mkProduct "MOUSE007" "Gaming Mouse" "Accessories" 79.99;
    mkProduct "MONITOR008" "4K Monitor" "Electronics" 399.99 ]%string.

(** What the random generator and the clock contribute to one record: the
    product chosen, the quantity, the price factor drawn by
    [random.uniform(0.8, 1.1)], the formatted date, the customer number
    and the channel, payment method and region chosen. *)
Record draw : Type := mkDraw {
  d_product : product;
  d_quantity : Z;
  d_factor : Q;
  d_date : string;
  d_customer : nat;
  d_channel : string;
  d_payment : string;
  d_region : string
}.

(** The record that iteration [i] of the loop appends. *)
Definition sale (i : nat) (d : draw) : transaction :=
  let actual_price := p_price (d_product d) * d_factor d in
  mkTransaction
    (Some ("TXN" ++ str_of_nat (1000 + i))%string)
    (Some (p_id (d_product d)))
    (Some (p_name (d_product d)))
    (Some (p_category (d_product d)))
    (Some (d_quantity d))
    (Some (round2 actual_price))
    (Some (round2 (actual_price * inject_Z (d_quantity d))))
    (DateStr (d_date d))
    (Some ("CUST" ++ str_of_nat (d_customer d))%string)
    (Some (d_channel d))
    (Some (d_payment d))
    (Some (d_region d)).

Fixpoint sales_from (i : nat) (draws : list draw) : list transaction :=
  match draws with
  | [] => []
  | d :: rest => sale i d :: sales_from (S i) rest
  end.

(** [sales_data] after the loop, one record per draw. *)
Definition sales_data (draws : list draw) : list transaction := sales_from 0 draws.

(** The ranges the generator draws from. *)
Definition valid_draw (d : draw) : Prop :=
  In (d_product d) products /\
  0.8 <= d_factor d /\ d_factor d <= 1.1 /\
  (1 <= d_quantity d <= 5)%Z.

Definition sample_draw : draw :=
  mkDraw (mkProduct "MOUSE007" "Gaming Mouse" "Accessories" 79.99) 5
         (80.004 / 79.99) "2024-01-15 10:30:00" 17 "Online" "PayPal" "North".

(** ** Retention *)

(** [(customer_stats['order_count'] > 1).mean() * 100]. *)
Definition retention_rate (cs : list (string * customer_row)) : option Q :=
  option_map (fun m => m * 100)
    (float_div (Qnat (count_true (fun kv => (1 <? order_count (stats (snd kv)))%nat) cs))
               (List.length cs)).

(** The record has the given key and a total_amount. *)
Definition with_amount {K : Type} (key : enriched -> option K) (e : enriched) : bool :=
  negb (isnull (key e)) && negb (isnull (amount e)).

Definition region_key (e : enriched) : option string := region (base e).

(** The column of record counts of a summary table. *)
Definition count_column {K : Type} (tbl : list (K * group_stats)) : list nat :=
  map (fun kv => g_count (snd kv)) tbl.

(** ** Step 7: export summary *)

Inductive export_info : Type :=
| FrameInfo (records : nat) (columns : list string) (shape : nat * nat)
| SeriesInfo (records : nat) (data_type : string) (categories : nat).

Definition transaction_columns : list string :=
  [ "transaction_id"; "product_id"; "product_name"; "category"; "quantity";
    "unit_price"; "total_amount"; "transaction_date"; "customer_id";
    "sales_channel"; "payment_method"; "region";
    "year"; "month"; "day"; "hour"; "day_of_week"; "revenue_category";
    "is_weekend" ]%string.

Definition customer_columns : list string :=
  [ "total_spent"; "order_count"; "last_purchase"; "avg_order_value"; "segment" ]%string.

Definition monthly_columns : list string :=
  [ "revenue"; "transactions"; "avg_order_value"; "unique_customers" ]%string.

Definition product_columns : list string := [ "total_amount"; "quantity" ]%string.

Definition frame_info {A : Type} (data : list A) (columns : list string) : export_info :=
  FrameInfo (List.length data) columns (List.length data, List.length columns).

Definition series_info {A : Type} (data : list A) : export_info :=
  SeriesInfo (List.length data) "Series" (List.length data).

(** [export_summary]: the data frames first, then the series, in the order
    the two dictionaries list them. *)
Definition export_summary (t : tables) : list (string * export_info) :=
  [ ("sales_transactions", frame_info (t_df_transformed t) transaction_columns);
    ("customer_segments", frame_info (t_customer_stats t) customer_columns);
    ("monthly_summary", frame_info (t_monthly_summary t) monthly_columns);
    ("top_products", frame_info (t_top_products t) product_columns);
    ("revenue_by_category", series_info (t_revenue_by_category t));
    ("revenue_by_channel", series_info (t_revenue_by_channel t));
    ("daily_revenue", series_info (t_daily_revenue t)) ]%string.

Definition records_of (info : export_info) : nat :=
  match info with
  | FrameInfo n _ _ => n
  | SeriesInfo n _ _ => n
  end.

Definition exported_records (name : string) (t : tables) : option nat :=
  option_map records_of (lookup name (export_summary t)).

(** The segment the join attaches to the records of a customer. *)
Definition segment_of (cs : list (string * customer_row)) (c : string) : string :=
  match lookup c cs with
  | Some row => segment row
  | None => ""
  end.

(** The column of customer counts of a summary table. *)
Definition customers_column {K : Type} (tbl : list (K * group_stats)) : list nat :=
  map (fun kv => g_customers (snd kv)) tbl.

(** The rounded revenue of the records of one category and one channel. *)
Definition cell_revenue (df : list enriched) (c ch : string) : Q :=
  round2 (sum_skipna (amounts (filter (in_cell c ch) df))).

(** * Properties *)

(** ** Comparisons *)

Lemma Qltb_lt (x y : Q) : Qltb x y = true <-> x < y.
Proof.
  unfold Qltb. rewrite negb_true_iff.
  split; intros H.
  - apply Qnot_le_lt. intros Hle. apply Qle_bool_iff in Hle. congruence.
  - destruct (Qle_bool y x) eqn:E; [| reflexivity].
    apply Qle_bool_iff in E. apply Qlt_not_le in H. contradiction.
Qed.

Lemma Qltb_ge (x y : Q) : Qltb x y = false <-> y <= x.
Proof.
  unfold Qltb. rewrite negb_false_iff. apply Qle_bool_iff.
Qed.

Ltac qcases :=
  repeat match goal with
  | |- context [Qltb ?a ?b] =>
      let E := fresh "E" in
      destruct (Qltb a b) eqn:E;
      [apply Qltb_lt in E | apply Qltb_ge in E]
  end.

(** ** Segments *)

(** C3: the segment is decided by total_spent and order_count alone, first
    match first: VIP iff total_spent > 2000 and order_count > 10, else
    Regular iff total_spent > 1000 or order_count > 5, else New; with the
    three boundary cases of the specification. *)
Theorem categorize_customer_spec :
  (forall row,
      let vip := 2000 < total_spent row /\ (10 < order_count row)%nat in
      let regular := 1000 < total_spent row \/ (5 < order_count row)%nat in
      (categorize_customer row = "VIP"%string <-> vip) /\
      (categorize_customer row = "Regular"%string <-> ~ vip /\ regular) /\
      (categorize_customer row = "New"%string <-> ~ vip /\ ~ regular) /\
      categorize_customer row =
        categorize_customer (mkCustomerAgg (total_spent row) (order_count row) None None)) /\
  (forall lp avg, categorize_customer (mkCustomerAgg 2001 11 lp avg) = "VIP"%string) /\
  (forall lp avg, categorize_customer (mkCustomerAgg 2000 11 lp avg) = "Regular"%string) /\
  (forall lp avg, categorize_customer (mkCustomerAgg 500 1 lp avg) = "New"%string).
Proof.
  split; [| repeat split; reflexivity].
  intros row vip regular. subst vip regular.
  unfold categorize_customer. cbn [total_spent order_count].
  destruct (Nat.ltb_spec 10 (order_count row)) as [Hc|Hc];
    destruct (Nat.ltb_spec 5 (order_count row)) as [Hd|Hd];
    try (exfalso; lia);
    qcases; cbn [andb orb];
    repeat match goal with
           | H : (_ <= _)%nat |- _ => apply Nat.le_ngt in H
           | H : _ <= _ |- _ => apply Qle_not_lt in H
           end;
    (split; [| split; [| split ]]); try reflexivity;
    (split; [intros Heq; try discriminate Heq | intros Hp]);
    try reflexivity; tauto.
Qed.

(** ** Revenue buckets *)

(** C4: revenue_category puts total_amount in the intervals (0,100] Low,
    (100,500] Medium, (500,1000] High, (1000,inf) Premium, right edges
    included; 100 is Low, 100.01 is Medium, 1000000 is Premium.  (An amount
    that is missing or not positive has no category.) *)
Theorem revenue_category_spec :
  (forall r,
      revenue_category (enrich r) = cut revenue_bins revenue_labels (total_amount r) /\
      match total_amount r with
      | Some x =>
          (revenue_category (enrich r) = Some "Low"%string <-> 0 < x /\ x <= 100) /\
          (revenue_category (enrich r) = Some "Medium"%string <-> 100 < x /\ x <= 500) /\
          (revenue_category (enrich r) = Some "High"%string <-> 500 < x /\ x <= 1000) /\
          (revenue_category (enrich r) = Some "Premium"%string <-> 1000 < x) /\
          (revenue_category (enrich r) = None <-> x <= 0)
      | None => revenue_category (enrich r) = None
      end) /\
  cut revenue_bins revenue_labels (Some 100) = Some "Low"%string /\
  cut revenue_bins revenue_labels (Some 100.01) = Some "Medium"%string /\
  cut revenue_bins revenue_labels (Some 1000000) = Some "Premium"%string.
Proof.
  split; [| repeat split; reflexivity].
  intros r. split; [reflexivity |].
  unfold enrich. cbn [revenue_category].
  destruct (total_amount r) as [x |]; [| reflexivity].
  unfold cut, searchsorted_left, revenue_bins, revenue_labels.
  cbn [filter edge_ltb].
  qcases; try (exfalso; lra); cbn;
    (split; [| split; [| split; [| split]]]);
    (split; intros Hx); try discriminate Hx; try reflexivity; lra.
Qed.

(** ** Validator *)

Lemma count_true_pos {A : Type} (p : A -> bool) (l : list A) :
  (0 < count_true p l)%nat <-> Exists (fun a => p a = true) l.
Proof.
  unfold count_true. induction l as [| a l IH]; cbn.
  - split; [lia | intros H; inversion H].
  - destruct (p a) eqn:E; cbn.
    + split; [intros _; now left | lia].
    + rewrite IH. split; [now right |].
      intros H. inversion H; [congruence | assumption].
Qed.

Lemma list_sum_pos (l : list nat) :
  (0 < list_sum l)%nat <-> Exists (fun n => 0 < n)%nat l.
Proof.
  induction l as [| n l IH].
  - cbn. split; [lia | intros H; inversion H].
  - change (list_sum (n :: l)) with (n + list_sum l)%nat. split.
    + intros H. destruct n; [right; apply IH; lia | left; lia].
    + intros H. inversion H; subst; [lia |].
      assert (0 < list_sum l)%nat by now apply IH. lia.
Qed.

(** The first check fires when some record has a null field. *)
Lemma missing_values_pos (df : list transaction) :
  (0 < list_sum (missing_data df))%nat <-> Exists (fun r => has_null r = true) df.
Proof.
  unfold missing_data. rewrite list_sum_pos, Exists_map.
  rewrite !Exists_exists. split.
  - intros [col [Hcol Hex]]. apply count_true_pos, Exists_exists in Hex.
    destruct Hex as [r [Hr Hnull]]. exists r. split; [assumption |].
    unfold has_null. apply existsb_exists. now exists col.
  - intros [r [Hr Hnull]]. unfold has_null in Hnull.
    apply existsb_exists in Hnull. destruct Hnull as [col [Hcol Hnull]].
    exists col. split; [assumption |].
    apply count_true_pos, Exists_exists. now exists r.
Qed.

Lemma option_string_eqb_eq (a b : option string) :
  option_string_eqb a b = true <-> a = b.
Proof.
  destruct a as [x |], b as [y |]; cbn; try (split; congruence).
  rewrite String.eqb_eq. split; congruence.
Qed.

Lemma duplicated_from_none (seen col : list (option string)) :
  count_true (fun b : bool => b) (duplicated_from seen col) = 0%nat <->
  NoDup col /\ (forall x, In x col -> ~ In x seen).
Proof.
  revert seen. induction col as [| x col IH]; intros seen; cbn.
  - split; [intros _; split; [constructor | intros ? []] | reflexivity].
  - unfold count_true in *. cbn.
    destruct (existsb (option_string_eqb x) seen) eqn:E; cbn.
    + split; [discriminate |].
      intros [_ H]. exfalso. apply (H x (or_introl eq_refl)).
      apply existsb_exists in E. destruct E as [y [Hy Hxy]].
      apply option_string_eqb_eq in Hxy. now subst.
    + rewrite IH. split.
      * intros [Hnd Hfresh]. split.
        -- constructor; [| assumption].
           intros Hin. apply (Hfresh x Hin). now left.
        -- intros y [<- | Hy] Hseen.
           ++ assert (Ht : existsb (option_string_eqb x) seen = true).
              { apply existsb_exists. exists x. split; [assumption |].
                now apply option_string_eqb_eq. }
              congruence.
           ++ apply (Hfresh y Hy). now right.
      * intros [Hnd Hfresh]. inversion Hnd as [| ? ? Hx Hnd']; subst.
        split; [assumption |].
        intros y Hy [<- | Hseen]; [contradiction |].
        apply (Hfresh y); [now right | assumption].
Qed.

(** The second check fires when a transaction_id occurs twice. *)
Lemma duplicates_pos (df : list transaction) :
  (0 < duplicates df)%nat <-> ~ NoDup (map transaction_id df).
Proof.
  unfold duplicates, duplicated.
  pose proof (duplicated_from_none [] (map transaction_id df)) as H.
  split.
  - intros Hpos Hnd. assert (Hz : count_true (fun b : bool => b)
      (duplicated_from [] (map transaction_id df)) = 0%nat).
    { apply H. split; [assumption | intros ? _ []]. }
    lia.
  - intros Hnd.
    destruct (count_true (fun b : bool => b)
                (duplicated_from [] (map transaction_id df))) eqn:E; [| lia].
    exfalso. apply Hnd. now apply H.
Qed.

(** The third check fires when a unit price is zero or negative. *)
Lemma negative_prices_pos (df : list transaction) :
  (0 < negative_prices df)%nat <->
  Exists (fun r => exists p, unit_price r = Some p /\ p <= 0) df.
Proof.
  unfold negative_prices. rewrite count_true_pos, !Exists_exists.
  unfold price_nonpositive.
  split; intros [r [Hr H]]; exists r; (split; [assumption |]).
  - destruct (unit_price r) as [p |]; [| discriminate].
    exists p. split; [reflexivity | now apply Qle_bool_iff].
  - destruct H as [p [-> Hp]]. now apply Qle_bool_iff.
Qed.

(** C7: the health score is 100 minus 10 if any value is missing, minus 15
    if any transaction_id is repeated, minus 20 if any unit price is not
    positive; a penalty is taken once however many records are affected,
    and every combination of the three checks occurs. *)
Theorem health_score_spec :
  (forall df,
      let missing := (0 <? list_sum (missing_data df))%nat in
      let dup := (0 <? duplicates df)%nat in
      let price := (0 <? negative_prices df)%nat in
      data_health_score (validate_data_quality df) =
        (100 - (if missing then 10 else 0)
             - (if dup then 15 else 0)
             - (if price then 20 else 0))%Z /\
      (missing = true <-> Exists (fun r => has_null r = true) df) /\
      (dup = true <-> ~ NoDup (map transaction_id df)) /\
      (price = true <->
         Exists (fun r => exists p, unit_price r = Some p /\ p <= 0) df)) /\
  (forall missing dup price : bool, exists df,
      (0 <? list_sum (missing_data df))%nat = missing /\
      (0 <? duplicates df)%nat = dup /\
      (0 <? negative_prices df)%nat = price).
Proof.
  split.
  - intros df missing dup price. subst missing dup price. split; [| split; [| split]].
    + unfold validate_data_quality.
      destruct (0 <? list_sum (missing_data df))%nat;
        destruct (0 <? duplicates df)%nat;
        destruct (0 <? negative_prices df)%nat; reflexivity.
    + rewrite Nat.ltb_lt. apply missing_values_pos.
    + rewrite Nat.ltb_lt. apply duplicates_pos.
    + rewrite Nat.ltb_lt. apply negative_prices_pos.
  - intros missing dup price. exists (probe missing dup price).
    destruct missing, dup, price; vm_compute; repeat split.
Qed.

(** C10: the health score is one of 100, 90, 85, 80, 75, 70, 65, 55, hence
    at least 55 and never negative; each of the eight values occurs. *)
Theorem health_score_range :
  (forall df,
      let s := data_health_score (validate_data_quality df) in
      (55 <= s <= 100)%Z /\ In s [100; 90; 85; 80; 75; 70; 65; 55]%Z) /\
  Forall (fun s => exists df, data_health_score (validate_data_quality df) = s)
         [100; 90; 85; 80; 75; 70; 65; 55]%Z.
Proof.
  split.
  - intros df. unfold validate_data_quality.
    destruct (0 <? list_sum (missing_data df))%nat;
      destruct (0 <? duplicates df)%nat;
      destruct (0 <? negative_prices df)%nat; cbn; split; try lia; tauto.
  - repeat constructor.
    + exists (probe false false false). reflexivity.
    + exists (probe true false false). reflexivity.
    + exists (probe false true false). reflexivity.
    + exists (probe false false true). reflexivity.
    + exists (probe true true false). reflexivity.
    + exists (probe true false true). reflexivity.
    + exists (probe false true true). reflexivity.
    + exists (probe true true true). reflexivity.
Qed.

(** ** Group-by *)

Section GroupByFacts.
Context {K V : Type}.
Variable cmp : K -> K -> comparison.
Variable key : V -> option K.

(** The groups partition the rows that have a key, whatever the order on
    keys is. *)
Lemma add_row_perm (k : K) (r : V) (gs : list (K * list V)) :
  Permutation (List.concat (map snd (add_row cmp k r gs))) (r :: List.concat (map snd gs)).
Proof.
  induction gs as [| [k' rows] gs IH]; cbn.
  - reflexivity.
  - destruct (cmp k k'); cbn.
    + reflexivity.
    + reflexivity.
    + rewrite IH. symmetry. apply Permutation_middle.
Qed.

Lemma groupby_perm (df : list V) :
  Permutation (List.concat (map snd (groupby cmp key df))) (keyed key df).
Proof.
  induction df as [| r df IH]; cbn.
  - reflexivity.
  - destruct (key r) as [k |]; cbn.
    + rewrite add_row_perm. now constructor.
    + exact IH.
Qed.

(** No group is empty. *)
Lemma add_row_nonempty (k : K) (r : V) (gs : list (K * list V)) :
  Forall (fun g => snd g <> []) gs ->
  Forall (fun g => snd g <> []) (add_row cmp k r gs).
Proof.
  induction gs as [| [k' rows] gs IH]; cbn; intros H.
  - constructor; [discriminate | constructor].
  - inversion H; subst.
    destruct (cmp k k').
    + constructor; [discriminate | assumption].
    + constructor; [discriminate | assumption].
    + constructor; [assumption | now apply IH].
Qed.

Lemma groupby_nonempty (df : list V) :
  Forall (fun g => snd g <> []) (groupby cmp key df).
Proof.
  induction df as [| r df IH]; cbn.
  - constructor.
  - destruct (key r); [now apply add_row_nonempty | assumption].
Qed.

(** With a key order that is a strict total order, the keys of the groups
    ascend and the group of a key holds exactly the rows with that key,
    in frame order. *)
Hypothesis cmp_eq : forall a b, cmp a b = Eq -> a = b.
Hypothesis cmp_refl : forall a, cmp a a = Eq.
Hypothesis cmp_trans : forall a b c, cmp a b = Lt -> cmp b c = Lt -> cmp a c = Lt.
Hypothesis cmp_gt : forall a b, cmp a b = Gt -> cmp b a = Lt.

Lemma cmp_gt_of_lt (a b : K) : cmp a b = Lt -> cmp b a = Gt.
Proof.
  intros H. destruct (cmp b a) eqn:E; [| | reflexivity].
  - apply cmp_eq in E. subst b. rewrite cmp_refl in H. discriminate.
  - pose proof (cmp_trans _ _ _ H E) as Hc. rewrite cmp_refl in Hc. discriminate.
Qed.

Lemma add_row_keys (k : K) (r : V) (gs : list (K * list V)) (x : K) :
  In x (map fst (add_row cmp k r gs)) -> x = k \/ In x (map fst gs).
Proof.
  induction gs as [| [k' rows] gs IH]; cbn.
  - intros [H | []]; auto.
  - destruct (cmp k k') eqn:E; cbn.
    + intros [H | H]; auto.
    + intros [H | [H | H]]; auto.
    + intros [H | H]; auto. destruct (IH H); auto.
Qed.

Lemma add_row_sorted (k : K) (r : V) (gs : list (K * list V)) :
  StronglySorted (key_lt cmp) (map fst gs) ->
  StronglySorted (key_lt cmp) (map fst (add_row cmp k r gs)).
Proof.
  induction gs as [| [k' rows] gs IH]; cbn; intros H.
  - repeat constructor.
  - inversion H as [| ? ? Hs Hall]; subst.
    destruct (cmp k k') eqn:E; cbn.
    + assumption.
    + constructor; [assumption |].
      constructor; [exact E |].
      eapply Forall_impl; [| exact Hall].
      intros y Hy. exact (cmp_trans _ _ _ E Hy).
    + constructor; [now apply IH |].
      apply Forall_forall. intros x Hx.
      destruct (add_row_keys _ _ _ _ Hx) as [-> | Hin].
      * now apply cmp_gt.
      * rewrite Forall_forall in Hall. now apply Hall.
Qed.

Lemma groupby_sorted (df : list V) :
  StronglySorted (key_lt cmp) (map fst (groupby cmp key df)).
Proof.
  induction df as [| r df IH]; cbn.
  - constructor.
  - destruct (key r); [now apply add_row_sorted | assumption].
Qed.

Lemma rows_of_below (k : K) (gs : list (K * list V)) :
  Forall (key_lt cmp k) (map fst gs) -> rows_of cmp k gs = [].
Proof.
  induction gs as [| [k' rows] gs IH]; cbn; intros H; [reflexivity |].
  inversion H as [| ? ? Hlt Hrest]; subst.
  unfold key_lt in Hlt. rewrite Hlt. now apply IH.
Qed.

Lemma rows_of_add_same (k : K) (r : V) (gs : list (K * list V)) :
  StronglySorted (key_lt cmp) (map fst gs) ->
  rows_of cmp k (add_row cmp k r gs) = r :: rows_of cmp k gs.
Proof.
  induction gs as [| [k' rows] gs IH]; cbn; intros H.
  - now rewrite cmp_refl.
  - inversion H as [| ? ? Hs Hall]; subst.
    destruct (cmp k k') eqn:E; cbn.
    + now rewrite E.
    + rewrite cmp_refl. f_equal. symmetry. apply rows_of_below.
      eapply Forall_impl; [| exact Hall].
      intros y Hy. exact (cmp_trans _ _ _ E Hy).
    + rewrite E. now apply IH.
Qed.

Lemma rows_of_add_other (k k' : K) (r : V) (gs : list (K * list V)) :
  k <> k' -> rows_of cmp k' (add_row cmp k r gs) = rows_of cmp k' gs.
Proof.
  intros Hne.
  induction gs as [| [k0 rows] gs IH]; cbn.
  - destruct (cmp k' k) eqn:E; try reflexivity.
    apply cmp_eq in E. congruence.
  - destruct (cmp k k0) eqn:E; cbn.
    + apply cmp_eq in E. subst k0.
      destruct (cmp k' k) eqn:E'; try reflexivity.
      apply cmp_eq in E'. congruence.
    + destruct (cmp k' k) eqn:E'; try reflexivity.
      apply cmp_eq in E'. congruence.
    + now rewrite IH.
Qed.

Lemma rows_of_groupby (k : K) (df : list V) :
  rows_of cmp k (groupby cmp key df) = filter (has_key cmp key k) df.
Proof.
  induction df as [| r df IH]; cbn; [reflexivity |].
  unfold has_key at 1.
  destruct (key r) as [k' |]; [| exact IH].
  destruct (cmp k k') eqn:E.
  - apply cmp_eq in E. subst k'.
    rewrite rows_of_add_same by apply groupby_sorted. now rewrite IH.
  - rewrite rows_of_add_other; [exact IH |].
    intros ->. rewrite cmp_refl in E. discriminate.
  - rewrite rows_of_add_other; [exact IH |].
    intros ->. rewrite cmp_refl in E. discriminate.
Qed.

Lemma rows_of_in (k : K) (rows : list V) (gs : list (K * list V)) :
  StronglySorted (key_lt cmp) (map fst gs) ->
  In (k, rows) gs -> rows_of cmp k gs = rows.
Proof.
  induction gs as [| [k' rows'] gs IH]; cbn; intros Hs Hin; [contradiction |].
  inversion Hs as [| ? ? Hs' Hall]; subst.
  destruct Hin as [Heq | Hin].
  - inversion Heq; subst. now rewrite cmp_refl.
  - assert (Hlt : key_lt cmp k' k).
    { rewrite Forall_forall in Hall. apply Hall.
      apply in_map_iff. now exists (k, rows). }
    apply cmp_gt_of_lt in Hlt.
    rewrite Hlt. now apply IH.
Qed.
End GroupByFacts.

(** ** Customer aggregates *)

Lemma str_cmp_eq (a b : string) : str_cmp a b = Eq -> a = b.
Proof.
  unfold str_cmp. intros H.
  destruct (String_as_OT.compare_spec a b); congruence.
Qed.

Lemma str_cmp_refl (a : string) : str_cmp a a = Eq.
Proof.
  unfold str_cmp.
  destruct (String_as_OT.compare_spec a a) as [| H | H]; [reflexivity | |];
    exfalso; exact (StrictOrder_Irreflexive a H).
Qed.

Lemma str_cmp_trans (a b c : string) :
  str_cmp a b = Lt -> str_cmp b c = Lt -> str_cmp a c = Lt.
Proof.
  unfold str_cmp. intros H1 H2.
  exact (StrictOrder_Transitive (R := String_as_OT.lt) a b c H1 H2).
Qed.

Lemma str_cmp_gt (a b : string) : str_cmp a b = Gt -> str_cmp b a = Lt.
Proof.
  unfold str_cmp. intros H.
  destruct (String_as_OT.compare_spec a b) as [| | Hlt]; try discriminate.
  exact Hlt.
Qed.

Lemma has_key_str {V : Type} (key : V -> option string) (k : string) (r : V) :
  has_key str_cmp key k r = option_string_eqb (key r) (Some k).
Proof.
  unfold has_key, option_string_eqb.
  destruct (key r) as [k' |]; [| reflexivity].
  destruct (str_cmp k k') eqn:E.
  - apply str_cmp_eq in E. subst. symmetry. apply String.eqb_refl.
  - symmetry. apply String.eqb_neq. intros ->.
    rewrite str_cmp_refl in E. discriminate.
  - symmetry. apply String.eqb_neq. intros ->.
    rewrite str_cmp_refl in E. discriminate.
Qed.

(** The group of a customer is the list of the customer's records. *)
Lemma groupby_str_rows {V : Type} (key : V -> option string) (df : list V)
    (k : string) (rows : list V) :
  In (k, rows) (groupby str_cmp key df) ->
  rows = filter (fun r => option_string_eqb (key r) (Some k)) df /\ rows <> [].
Proof.
  intros Hin. split.
  - assert (Hs : StronglySorted (key_lt str_cmp) (map fst (groupby str_cmp key df))).
    { exact (groupby_sorted str_cmp key str_cmp_trans str_cmp_gt df). }
    pose proof (rows_of_in str_cmp str_cmp_eq str_cmp_refl str_cmp_trans
                  k rows (groupby str_cmp key df) Hs Hin) as Hrows.
    rewrite (rows_of_groupby str_cmp key str_cmp_eq str_cmp_refl str_cmp_trans
               str_cmp_gt) in Hrows.
    rewrite <- Hrows. apply filter_ext. intros r. apply has_key_str.
  - pose proof (groupby_nonempty str_cmp key df) as Hne.
    rewrite Forall_forall in Hne. exact (Hne _ Hin).
Qed.

Lemma customer_stats_in (df : list enriched) (k : string) (row : customer_row) :
  In (k, row) (customer_stats df) ->
  exists rows,
    In (k, rows) (groupby str_cmp (fun e => customer_id (base e)) df) /\
    stats row = aggregate_customer rows /\
    segment row = categorize_customer (aggregate_customer rows).
Proof.
  unfold customer_stats, agg. rewrite map_map. intros Hin.
  apply in_map_iff in Hin. destruct Hin as [[k' rows] [Heq Hin]].
  cbn in Heq. inversion Heq; subst. exists rows. cbn. auto.
Qed.

Lemma count_notna_pos (rows : list enriched) :
  rows <> [] -> Forall (fun e => amount e <> None) rows ->
  (0 < count_notna (amounts rows))%nat.
Proof.
  destruct rows as [| e rows]; [congruence |].
  intros _ H. inversion H as [| ? ? He _]; subst. cbn.
  destruct (amount e); [lia | congruence].
Qed.

(** C9 fails on a customer whose records all lack a total_amount: the
    group exists, its order_count is 0 and its avg_order_value is 0/0. *)
Lemma order_count_zero_group :
  exists t,
    outcome (run_pipeline strptime null_amount_batch) = Ok t /\
    map (fun kv => (fst kv, order_count (stats (snd kv)),
                    avg_order_value (stats (snd kv))))
        (t_customer_stats t)
      = [("CUST1"%string, 0%nat, None); ("CUST2"%string, 1%nat, Some 79.99)] /\
    ~ (forall k row,
          In (k, row) (t_customer_stats t) ->
          (0 < order_count (stats row))%nat /\ avg_order_value (stats row) <> None).
Proof.
  eexists. split; [vm_compute; reflexivity |]. split; [reflexivity |].
  intros H.
  match type of H with
  | forall k row, In (k, row) ?cs -> _ =>
      destruct (H "CUST1"%string
                  (first_row cs (mkCustomerRow (mkCustomerAgg 0 0 None None) "New")))
        as [Hpos _]
  end.
  - left. reflexivity.
  - vm_compute in Hpos. lia.
Qed.

(** C9, amended: the order_count of a customer counts the customer's
    records that have a total_amount; every group has a record, the
    average is total_spent / order_count rounded, it is defined exactly
    when order_count > 0, and that holds when none of the customer's
    records lacks its total_amount. *)
Theorem order_count_positive (df : list enriched) (k : string) (row : customer_row) :
  In (k, row) (customer_stats df) ->
  let mine := filter (fun e => option_string_eqb (customer_id (base e)) (Some k)) df in
  mine <> [] /\
  order_count (stats row) = count_notna (amounts mine) /\
  avg_order_value (stats row) =
    option_map round2 (float_div (total_spent (stats row)) (order_count (stats row))) /\
  ((0 < order_count (stats row))%nat <-> avg_order_value (stats row) <> None) /\
  (Forall (fun e => amount e <> None) mine -> (0 < order_count (stats row))%nat).
Proof.
  intros Hin mine.
  destruct (customer_stats_in df k row Hin) as [rows [Hg [Hstats _]]].
  destruct (groupby_str_rows _ df k rows Hg) as [Hrows Hne].
  fold mine in Hrows. subst rows.
  rewrite Hstats. unfold aggregate_customer. cbn [order_count total_spent avg_order_value].
  repeat split; try assumption.
  - intros Hpos. destruct (count_notna (amounts mine)); [lia | discriminate].
  - intros Hdef. destruct (count_notna (amounts mine)); [now elim Hdef | lia].
  - intros Hall. now apply count_notna_pos.
Qed.

Lemma order_count_positive_witness :
  let df := map enrich two_orders in
  let row := first_row (customer_stats df) (mkCustomerRow (mkCustomerAgg 0 0 None None) "New") in
  In ("CUST1"%string, row) (customer_stats df) /\
  order_count (stats row) = 2%nat /\
  (0 < order_count (stats row))%nat.
Proof.
  intros df row.
  assert (Hin : In ("CUST1"%string, row) (customer_stats df)) by (left; reflexivity).
  destruct (order_count_positive df "CUST1"%string row Hin) as [_ [Hc [_ [_ Hpos]]]].
  split; [exact Hin |].
  split; [exact Hc |].
  apply Hpos. repeat constructor; discriminate.
Defined.

(** ** The empty batch *)

(** C1 fails: the empty batch stops the run.  The frame the notebook makes
    of an empty list of records has no columns, and the validator raises
    KeyError at [df['transaction_id']]; on an empty frame that has the
    columns of the schema the print of the top category raises IndexError.
    The mean is NaN, and [idxmax] of the empty hourly_sales would raise
    ValueError. *)
Lemma empty_batch_raises :
  notebook strptime [] = Raise KeyError /\
  outcome (run_pipeline strptime []) = Raise IndexError /\
  KPI.avg_order_value (map enrich []) = None /\
  peak_hour (map enrich []) = Raise ValueError.
Proof. repeat split. Qed.

(** C1, amended: the empty batch raises.  As the notebook builds it (a
    frame without columns) the validator raises KeyError.  On an empty
    frame with the columns of the schema the validator reports 0 records,
    no issue and score 100; total_revenue, total_transactions and
    unique_customers are 0, the average order value is undefined, and
    customer_stats, the revenue tables, daily_revenue and top_products are
    empty; the run then stops with IndexError at the print that reads the
    first label of revenue_by_category, before hourly_sales and peak_hour
    are computed ([idxmax] of the empty hourly_sales raises ValueError). *)
Theorem empty_batch_outputs (parse : string -> parsed) :
  notebook parse [] = Raise KeyError /\
  validate_frame (DataFrame []) = Raise KeyError /\
  let r := run_pipeline parse [] in
  let df := map enrich (raw_after r) in
  raw_after r = [] /\
  report r = mkReport 0 [] 100 /\
  KPI.total_revenue df = 0 /\
  KPI.total_transactions df = 0%nat /\
  KPI.unique_customers df = 0%nat /\
  KPI.avg_order_value df = None /\
  customer_stats df = [] /\
  revenue_by_category df = [] /\
  revenue_by_channel df = [] /\
  daily_revenue df = [] /\
  top_products df = [] /\
  first_label (revenue_by_category df) = Raise IndexError /\
  outcome r = Raise IndexError /\
  hourly_sales df = [] /\
  peak_hour df = Raise ValueError.
Proof. cbn. repeat split. Qed.

(** ** The raw batch across a run *)

Lemma to_datetime_cells (parse : string -> parsed) (col col' : list date_cell) :
  to_datetime parse col = Ok col' ->
  Forall2 (fun c c' => to_datetime_cell parse c = Ok c') col col'.
Proof.
  revert col'. induction col as [| c col IH]; cbn; intros col' H.
  - inversion H. constructor.
  - destruct (to_datetime_cell parse c) as [c1 |] eqn:Ec; cbn in H; [| discriminate].
    destruct (to_datetime parse col) as [rest |] eqn:Er; cbn in H; [| discriminate].
    inversion H; subst. constructor; [assumption | now apply IH].
Qed.

Lemma assign_dates (df : list transaction) (col : list date_cell) :
  List.length col = List.length df ->
  map transaction_date (assign_transaction_date df col) = col /\
  map other_fields (assign_transaction_date df col) = map other_fields df.
Proof.
  revert col. induction df as [| r df IH]; intros [| c col] Hlen;
    try discriminate; cbn; [auto |].
  injection Hlen as Hlen. destruct (IH col Hlen) as [H1 H2].
  now rewrite H1, H2.
Qed.

Lemma to_datetime_length (parse : string -> parsed) (col col' : list date_cell) :
  to_datetime parse col = Ok col' -> List.length col' = List.length col.
Proof.
  intros H. apply to_datetime_cells in H. symmetry.
  exact (Forall2_length H).
Qed.

(** C5 fails: the run replaces the date strings of the raw batch by
    timestamps. *)
Lemma raw_dates_rewritten :
  map transaction_date two_orders
    = [DateStr "2024-01-15 10:30:00"; DateStr "2024-01-16 11:00:00"] /\
  map transaction_date (raw_after (run_pipeline strptime two_orders))
    = [DateTs (mkDatetime 2024 1 15 10 30 0); DateTs (mkDatetime 2024 1 16 11 0 0)] /\
  raw_after (run_pipeline strptime two_orders) <> two_orders.
Proof.
  repeat split. intros H.
  apply (f_equal (map transaction_date)) in H. vm_compute in H. discriminate H.
Qed.

(** C5, amended: a run keeps the rows of the raw batch in number and order
    and all their fields except transaction_date; that column is
    overwritten in place by the converted dates, and when the conversion
    raises, the raw batch is left as it was. *)
Theorem raw_batch_frame (parse : string -> parsed) (df : list transaction) :
  let after := raw_after (run_pipeline parse df) in
  map other_fields after = map other_fields df /\
  match to_datetime parse (map transaction_date df) with
  | Ok col =>
      map transaction_date after = col /\
      Forall2 (fun c c' => to_datetime_cell parse c = Ok c')
              (map transaction_date df) col
  | Raise _ => after = df
  end.
Proof.
  unfold run_pipeline.
  destruct (to_datetime parse (map transaction_date df)) as [col | e] eqn:E;
    cbn [raw_after]; [| split; reflexivity].
  pose proof (to_datetime_length _ _ _ E) as Hlen. rewrite length_map in Hlen.
  destruct (assign_dates df col Hlen) as [H1 H2].
  repeat split; try assumption. now apply to_datetime_cells.
Qed.

(** ** Top products *)

Lemma insert_desc_perm {A : Type} (val : A -> Q) (x : A) (l : list A) :
  Permutation (insert_desc val x l) (x :: l).
Proof.
  induction l as [| y l IH]; cbn; [reflexivity |].
  destruct (Qltb (val x) (val y)); [| reflexivity].
  rewrite IH. apply perm_swap.
Qed.

Lemma sort_values_desc_perm {A : Type} (val : A -> Q) (l : list A) :
  Permutation (sort_values_desc val l) l.
Proof.
  induction l as [| x l IH]; cbn; [reflexivity |].
  rewrite insert_desc_perm. now constructor.
Qed.



(** * Further properties of the stages *)

(** ** Validator: the reported counts *)

Lemma nodup_length_remove (x : option string) (l : list (option string)) :
  List.length (nodup option_string_dec (x :: l))
  = S (List.length (nodup option_string_dec (remove option_string_dec x l))).
Proof.
  assert (Hin : forall l, In x l ->
            List.length (nodup option_string_dec l)
            = S (List.length (nodup option_string_dec (remove option_string_dec x l)))).
  { clear l. induction l as [| y l IH]; intros H; [contradiction |].
    cbn [nodup remove].
    destruct (option_string_dec x y) as [<- | Hne].
    - destruct (in_dec option_string_dec x l) as [Hx | Hx]; [now apply IH |].
      cbn. now rewrite (notin_remove option_string_dec l x Hx).
    - assert (Hx : In x l) by (destruct H; [congruence | assumption]).
      cbn [nodup].
      destruct (in_dec option_string_dec y l) as [Hy | Hy];
        destruct (in_dec option_string_dec y (remove option_string_dec x l)) as [Hy' | Hy'].
      + now apply IH.
      + exfalso. apply Hy'. apply in_in_remove; [congruence | assumption].
      + exfalso. apply Hy. now apply in_remove in Hy'.
      + cbn. f_equal. now apply IH. }
  cbn [nodup]. destruct (in_dec option_string_dec x l) as [Hx | Hx].
  - now apply Hin.
  - cbn. now rewrite (notin_remove option_string_dec l x Hx).
Qed.

Lemma unseen_cons (x y : option string) (seen : list (option string)) :
  unseen (x :: seen) y = negb (option_string_eqb y x) && unseen seen y.
Proof. unfold unseen. cbn [existsb]. apply negb_orb. Qed.

Lemma filter_unseen_cons (x : option string) (seen col : list (option string)) :
  filter (unseen (x :: seen)) col
  = remove option_string_dec x (filter (unseen seen) col).
Proof.
  induction col as [| y col IH]; [reflexivity |].
  cbn [filter]. rewrite unseen_cons, IH.
  destruct (unseen seen y); cbn [andb remove].
  - destruct (option_string_dec x y) as [<- | Hne].
    + replace (option_string_eqb x x) with true
        by (symmetry; now apply option_string_eqb_eq).
      reflexivity.
    + destruct (option_string_eqb y x) eqn:E; [| reflexivity].
      apply option_string_eqb_eq in E. congruence.
  - now rewrite andb_false_r.
Qed.

Lemma duplicated_from_count (seen col : list (option string)) :
  (count_true (fun b : bool => b) (duplicated_from seen col)
   + List.length (nodup option_string_dec (filter (unseen seen) col)))%nat
  = List.length col.
Proof.
  revert seen. induction col as [| x col IH]; intros seen; [reflexivity |].
  cbn [duplicated_from filter]. unfold count_true in *. cbn [filter].
  unfold unseen at 1.
  destruct (existsb (option_string_eqb x) seen) eqn:E; cbn [negb List.length].
  - rewrite <- (IH (x :: seen)). rewrite filter_unseen_cons.
    rewrite notin_remove; [lia |].
    intros Hin. apply filter_In in Hin. destruct Hin as [_ Hu].
    unfold unseen in Hu. rewrite E in Hu. discriminate.
  - rewrite nodup_length_remove, <- filter_unseen_cons.
    rewrite <- (IH (x :: seen)). lia.
Qed.

(** X1: the number the validator reports as duplicate ids is the number of
    records minus the number of distinct transaction ids. *)
Theorem duplicates_count (df : list transaction) :
  (duplicates df + List.length (nodup option_string_dec (map transaction_id df)))%nat
  = List.length df.
Proof.
  unfold duplicates, duplicated.
  pose proof (duplicated_from_count [] (map transaction_id df)) as H.
  rewrite length_map in H.
  replace (filter (unseen []) (map transaction_id df)) with (map transaction_id df) in H;
    [exact H |].
  symmetry. apply forallb_filter_id. apply forallb_forall. reflexivity.
Qed.

Lemma not_exists_price (df : list transaction) :
  ~ Exists (fun r => exists p, unit_price r = Some p /\ p <= 0) df <->
  Forall price_ok df.
Proof.
  rewrite <- Forall_Exists_neg. unfold price_ok. split; intros H.
  - eapply Forall_impl; [| exact H]. intros r Hr. cbn beta in Hr.
    destruct (unit_price r) as [p |] eqn:Ep; [| exact I].
    apply Qnot_le_lt. intros Hle. apply Hr. exists p. split; [reflexivity | exact Hle].
  - eapply Forall_impl; [| exact H]. intros r Hr [p [Hp Hle]].
    cbn beta in Hr. rewrite Hp in Hr. apply Qlt_not_le in Hr. exact (Hr Hle).
Qed.

(** X2: the report counts every record, and it lists no issue exactly when
    the score is 100, which is exactly when no field is null, no
    transaction id is repeated and every unit price that is present is
    positive. *)
Theorem clean_report (df : list transaction) :
  let q := validate_data_quality df in
  total_records q = List.length df /\
  (issues_found q = [] <-> data_health_score q = 100%Z) /\
  (issues_found q = [] <->
     Forall (fun r => has_null r = false) df /\
     NoDup (map transaction_id df) /\
     Forall price_ok df).
Proof.
  cbn zeta.
  pose proof (missing_values_pos df) as Hm.
  pose proof (duplicates_pos df) as Hd.
  pose proof (negative_prices_pos df) as Hp.
  rewrite <- not_exists_price, <- Hp.
  assert (Hnull : Forall (fun r => has_null r = false) df <->
                  ~ (0 < list_sum (missing_data df))%nat).
  { rewrite Hm, <- Forall_Exists_neg. split; intros H;
      (eapply Forall_impl; [| exact H]); intros r Hr; cbn beta in *.
    - rewrite Hr. discriminate.
    - destruct (has_null r); [now elim Hr | reflexivity]. }
  rewrite Hnull.
  assert (Hdup : NoDup (map transaction_id df) <-> ~ (0 < duplicates df)%nat).
  { rewrite Hd. split; [tauto |]. intros H.
    destruct (ListDec.NoDup_dec option_string_dec (map transaction_id df)); tauto. }
  rewrite Hdup.
  unfold validate_data_quality.
  generalize (list_sum (missing_data df)) (duplicates df) (negative_prices df).
  clear. intros m d n.
  destruct (Nat.ltb_spec 0 m); destruct (Nat.ltb_spec 0 d);
    destruct (Nat.ltb_spec 0 n);
    cbn; (split; [reflexivity |]); split; split;
      try discriminate; try reflexivity; try lia;
      try (intros [? [? ?]]; lia).
Qed.

(** ** Runs that complete *)

Lemma add_row_not_nil {K V : Type} (cmp : K -> K -> comparison) (k : K) (r : V)
    (gs : list (K * list V)) :
  add_row cmp k r gs <> [].
Proof.
  destruct gs as [| [k' rows] gs]; cbn; [discriminate |].
  destruct (cmp k k'); discriminate.
Qed.

(** A group-by has no group exactly when no row has a key. *)
Lemma groupby_nil_iff {K V : Type} (cmp : K -> K -> comparison) (key : V -> option K)
    (df : list V) :
  groupby cmp key df = [] <-> Forall (fun r => key r = None) df.
Proof.
  induction df as [| r df IH]; cbn.
  - split; [constructor | reflexivity].
  - destruct (key r) as [k |] eqn:E.
    + split; intros H.
      * now apply add_row_not_nil in H.
      * inversion H; congruence.
    + rewrite IH. split; intros H.
      * now constructor.
      * now inversion H.
Qed.

(** The statements of [analytics] that can raise, one after the other. *)
Ltac step_binds :=
  repeat match goal with
         | |- bind ?c _ = Ok _ -> _ =>
             destruct c eqn:?; cbn [bind]; [| discriminate]
         end.

(** The tables of a run that completes are those of the stages. *)
Lemma analytics_tables (df_raw : list transaction) (t : tables) :
  analytics df_raw = Ok t ->
  let df := map enrich df_raw in
  t_df_transformed t = map add_is_weekend df /\
  t_customer_stats t = customer_stats df /\
  t_unique_customers t = KPI.unique_customers df /\
  t_total_transactions t = KPI.total_transactions df /\
  t_top_products t = top_products df /\
  t_revenue_by_category t = revenue_by_category df /\
  t_revenue_by_channel t = revenue_by_channel df /\
  t_daily_revenue t = daily_revenue df.
Proof.
  unfold analytics. cbn zeta. step_binds.
  intros H. inversion H; subst; clear H. cbn. repeat split.
Qed.

(** X5: a run that completes neither drops nor adds a record: the enriched
    table, the raw frame it leaves, total_transactions and the validator's
    total_records all have the size of the input batch, and the enriched
    rows carry the rows of the raw frame in order. *)
Theorem no_record_dropped (parse : string -> parsed) (df : list transaction)
    (t : tables) :
  outcome (run_pipeline parse df) = Ok t ->
  let r := run_pipeline parse df in
  map base (t_df_transformed t) = raw_after r /\
  List.length (raw_after r) = List.length df /\
  t_total_transactions t = List.length df /\
  total_records (report r) = List.length df.
Proof.
  unfold run_pipeline.
  destruct (to_datetime parse (map transaction_date df)) as [col | e] eqn:E;
    cbn [outcome raw_after report]; [| discriminate].
  pose proof (to_datetime_length _ _ _ E) as Hlen. rewrite length_map in Hlen.
  destruct (assign_dates df col Hlen) as [_ Hother].
  assert (Hl : List.length (assign_transaction_date df col) = List.length df).
  { rewrite <- (length_map other_fields), Hother. apply length_map. }
  intros Ht. destruct (analytics_tables _ _ Ht) as [Hdf [_ [_ [Htt _]]]].
  rewrite Hdf, Htt. repeat split.
  - rewrite !map_map. cbn. apply map_id.
  - exact Hl.
  - unfold KPI.total_transactions. now rewrite length_map.
  - unfold validate_data_quality.
    destruct (0 <? list_sum (missing_data df))%nat;
      destruct (0 <? duplicates df)%nat;
      destruct (0 <? negative_prices df)%nat; reflexivity.
Qed.

Lemma no_record_dropped_witness :
  exists t,
    outcome (run_pipeline strptime week_orders) = Ok t /\
    t_total_transactions t = 3%nat /\
    List.length (t_df_transformed t) = 3%nat.
Proof.
  eexists. split; [vm_compute; reflexivity |].
  match goal with
  | |- t_total_transactions ?t = _ /\ _ =>
      destruct (no_record_dropped strptime week_orders t eq_refl) as [Hb [_ [Ht _]]]
  end.
  split; [exact Ht |].
  rewrite <- (length_map base), Hb. reflexivity.
Defined.

(** ** Customer aggregates: one row per customer *)

Section GroupByKeys.
Context {K V : Type}.
Variable cmp : K -> K -> comparison.
Variable key : V -> option K.
Hypothesis cmp_eq : forall a b, cmp a b = Eq -> a = b.
Hypothesis cmp_refl : forall a, cmp a a = Eq.

Lemma add_row_key_in (k : K) (r : V) (gs : list (K * list V)) :
  In k (map fst (add_row cmp k r gs)).
Proof.
  induction gs as [| [k' rows] gs IH]; cbn; [now left |].
  destruct (cmp k k') eqn:E; cbn.
  - left. symmetry. now apply cmp_eq.
  - now left.
  - now right.
Qed.

Lemma add_row_keys_kept (k x : K) (r : V) (gs : list (K * list V)) :
  In x (map fst gs) -> In x (map fst (add_row cmp k r gs)).
Proof.
  induction gs as [| [k' rows] gs IH]; cbn; [contradiction |].
  destruct (cmp k k'); cbn; intros [H | H]; auto.
Qed.

(** The keys of the groups are the keys that occur in the table. *)
Lemma groupby_keys (df : list V) (k : K) :
  In k (map fst (groupby cmp key df)) <-> In (Some k) (map key df).
Proof.
  induction df as [| r df IH]; cbn; [tauto |].
  destruct (key r) as [k' |] eqn:E.
  - split.
    + intros H. apply (add_row_keys cmp) in H. destruct H as [-> | H]; [now left |].
      right. now apply IH.
    + intros [H | H].
      * inversion H; subst. apply add_row_key_in.
      * apply add_row_keys_kept. now apply IH.
  - rewrite IH. split; [now right |]. intros [H | H]; [discriminate | assumption].
Qed.

Lemma sorted_keys_nodup (ks : list K) :
  StronglySorted (key_lt cmp) ks -> NoDup ks.
Proof.
  induction 1 as [| k ks Hs IH Hall]; constructor; [| assumption].
  intros Hin. rewrite Forall_forall in Hall. specialize (Hall k Hin).
  unfold key_lt in Hall. rewrite cmp_refl in Hall. discriminate.
Qed.
End GroupByKeys.

Lemma in_dropna {A : Type} (col : list (option A)) (x : A) :
  In x (dropna col) <-> In (Some x) col.
Proof.
  induction col as [| [y |] col IH]; cbn; [tauto | |].
  - rewrite IH. split; intros [H | H]; auto; left; congruence.
  - rewrite IH. split; [now right |]. intros [H | H]; [discriminate | assumption].
Qed.

Lemma customer_keys (df : list enriched) :
  map fst (customer_stats df) = map fst (groupby str_cmp customer_key df).
Proof.
  unfold customer_stats, agg. rewrite !map_map. reflexivity.
Qed.

Lemma customer_keys_sorted (df : list enriched) :
  StronglySorted (key_lt str_cmp) (map fst (customer_stats df)).
Proof.
  rewrite customer_keys.
  exact (groupby_sorted str_cmp customer_key str_cmp_trans str_cmp_gt df).
Qed.

Lemma customer_ids_in (df : list enriched) (c : string) :
  In c (map fst (customer_stats df)) <-> In (Some c) (map customer_key df).
Proof.
  rewrite customer_keys. apply (groupby_keys str_cmp _ str_cmp_eq).
Qed.

Lemma customer_ids_nodup (df : list enriched) : NoDup (map fst (customer_stats df)).
Proof.
  apply (sorted_keys_nodup str_cmp str_cmp_refl), customer_keys_sorted.
Qed.

Lemma customer_stats_length (df : list enriched) :
  List.length (customer_stats df) = KPI.unique_customers df.
Proof.
  rewrite <- (length_map fst). unfold KPI.unique_customers, nunique.
  apply Permutation_length, NoDup_Permutation;
    [apply customer_ids_nodup | apply NoDup_nodup |].
  intros c. rewrite nodup_In, in_dropna. apply customer_ids_in.
Qed.

(** X6: customer_stats has exactly one row for each customer_id that occurs
    in the batch, in ascending order of customer_id; so the number of
    customer aggregates is unique_customers. *)
Theorem one_row_per_customer (df : list enriched) :
  let ids := map fst (customer_stats df) in
  NoDup ids /\
  StronglySorted (key_lt str_cmp) ids /\
  (forall c, In c ids <-> In (Some c) (map customer_key df)) /\
  List.length (customer_stats df) = KPI.unique_customers df.
Proof.
  cbn zeta. repeat split.
  - apply customer_ids_nodup.
  - apply customer_keys_sorted.
  - apply customer_ids_in.
  - apply customer_ids_in.
  - apply customer_stats_length.
Qed.

(** ** Customer aggregates: conservation *)

Lemma count_notna_app {A : Type} (l l' : list (option A)) :
  count_notna (l ++ l') = (count_notna l + count_notna l')%nat.
Proof.
  induction l as [| [x |] l IH]; cbn; [reflexivity | now rewrite IH | exact IH].
Qed.

Lemma count_notna_perm {A : Type} (l l' : list (option A)) :
  Permutation l l' -> count_notna l = count_notna l'.
Proof.
  induction 1 as [| o l l' _ IH | a b l | l l' l'' _ IH1 _ IH2].
  - reflexivity.
  - destruct o; cbn; now rewrite IH.
  - destruct a, b; reflexivity.
  - now rewrite IH1.
Qed.

Lemma count_groups {K : Type} (gs : list (K * list enriched)) :
  list_sum (map (fun g => count_notna (amounts (snd g))) gs)
  = count_notna (amounts (List.concat (map snd gs))).
Proof.
  induction gs as [| [k rows] gs IH]; [reflexivity |].
  cbn [map list_sum List.concat snd fold_right].
  unfold amounts in *. rewrite map_app, count_notna_app. f_equal. exact IH.
Qed.

Lemma count_notna_keyed (df : list enriched) :
  count_notna (amounts (keyed customer_key df)) = count_true counted df.
Proof.
  unfold keyed, count_true, counted, amounts, customer_key.
  induction df as [| e df IH]; [reflexivity |].
  cbn [filter]. destruct (customer_id (base e)); cbn [isnull negb andb].
  - cbn [map count_notna]. destruct (amount e); cbn; now rewrite IH.
  - exact IH.
Qed.

(** X7: the order counts of the customer aggregates add up to the number
    of records that have both a customer_id and a total_amount. *)
Theorem order_count_conservation (df : list enriched) :
  list_sum (map (fun kv => order_count (stats (snd kv))) (customer_stats df))
  = count_true counted df.
Proof.
  unfold customer_stats, agg. rewrite !map_map. cbn [snd stats aggregate_customer order_count].
  fold customer_key.
  rewrite (count_groups (groupby str_cmp customer_key df)). unfold amounts.
  rewrite (count_notna_perm _ _ (Permutation_map amount (groupby_perm str_cmp customer_key df))).
  exact (count_notna_keyed df).
Qed.

(** ** Total spent against total revenue *)

(** C2 fails when an amount is not a whole number of cents: with orders of
    19.999 and 10 the total_spent figures are 20.00 and 10.00 and add up
    to 30.00, where total_revenue is 29.999. *)
Lemma rounding_breaks_conservation :
  exists t,
    outcome (run_pipeline strptime sub_cent_batch) = Ok t /\
    map (fun kv => (fst kv, total_spent (stats (snd kv)))) (t_customer_stats t)
      = [("CUST1"%string, 20.00); ("CUST2"%string, 10.00)] /\
    total_spent_sum (t_customer_stats t) == 30 /\
    t_total_revenue t == 29.999 /\
    ~ total_spent_sum (t_customer_stats t) == t_total_revenue t.
Proof.
  eexists. split; [vm_compute; reflexivity |].
  split; [vm_compute; reflexivity |].
  repeat split. intros H. vm_compute in H. discriminate H.
Qed.

(** C2, amended: customer_stats has one aggregate for each customer_id
    that occurs, and its total_spent is the sum of total_amount over the
    records of that customer, rounded to two decimals; the sum of
    total_spent is the sum of these rounded figures, where total_revenue
    is the sum of total_amount over all records, unrounded and with the
    records that have no customer_id.  The two need not be equal. *)
Theorem total_spent_by_customer (df : list enriched) :
  let cs := customer_stats df in
  let spent := fun c => round2 (sum_skipna (amounts (orders_of df c))) in
  NoDup (map fst cs) /\
  (forall c, In c (map fst cs) <-> In (Some c) (map customer_key df)) /\
  map (fun kv => (fst kv, total_spent (stats (snd kv)))) cs
    = map (fun c => (c, spent c)) (map fst cs) /\
  total_spent_sum cs = sum_skipna (map (fun c => Some (spent c)) (map fst cs)) /\
  KPI.total_revenue df = sum_skipna (amounts df).
Proof.
  cbn zeta.
  assert (Hrow : forall kv, In kv (customer_stats df) ->
            total_spent (stats (snd kv))
            = round2 (sum_skipna (amounts (orders_of df (fst kv))))).
  { intros [k row] Hin. cbn [fst snd].
    destruct (customer_stats_in df k row Hin) as [rows [Hg [Hstats _]]].
    destruct (groupby_str_rows _ df k rows Hg) as [Hrows _].
    rewrite Hstats. unfold aggregate_customer. cbn [total_spent].
    now rewrite Hrows. }
  split; [apply customer_ids_nodup |].
  split; [apply customer_ids_in |].
  split; [| split; [| reflexivity]].
  - rewrite map_map. apply map_ext_in. intros kv Hin. now rewrite (Hrow kv Hin).
  - unfold total_spent_sum. rewrite map_map. f_equal.
    apply map_ext_in. intros kv Hin. now rewrite (Hrow kv Hin).
Qed.

(** ** Rounding *)

Lemma rint_near (q : Q) :
  q - (1 # 2) <= inject_Z (rint q) /\ inject_Z (rint q) <= q + (1 # 2).
Proof.
  pose proof (Qfloor_le q) as Hlo. pose proof (Qlt_floor q) as Hhi.
  rewrite inject_Z_plus in Hhi. change (inject_Z 1) with 1 in Hhi. unfold rint.
  destruct (Qcompare (q - inject_Z (Qfloor q)) (1 # 2)) eqn:E.
  - apply Qeq_alt in E. destruct (Z.even (Qfloor q)).
    + split; lra.
    + rewrite inject_Z_plus. change (inject_Z 1) with 1. split; lra.
  - apply Qlt_alt in E. split; lra.
  - apply Qgt_alt in E. rewrite inject_Z_plus. change (inject_Z 1) with 1. split; lra.
Qed.

(** Rounding to two decimals moves a value by half a cent at most. *)
Lemma round2_near (x : Q) :
  x - (1 # 200) <= round2 x /\ round2 x <= x + (1 # 200).
Proof.
  destruct (rint_near (x * 100)) as [Hlo Hhi]. unfold round2.
  set (n := inject_Z (rint (x * 100))) in *. clearbody n.
  assert (Hn : n / 100 == n * (1 # 100)) by (unfold Qdiv; reflexivity).
  rewrite Hn. split; lra.
Qed.

(** ** Segments *)

(** X9: the segment is always VIP, Regular or New, and a customer who has
    spent at least as much over at least as many orders as another never
    gets a lower segment. *)
Theorem segment_monotone (r1 r2 : customer_agg) :
  total_spent r1 <= total_spent r2 ->
  (order_count r1 <= order_count r2)%nat ->
  In (categorize_customer r1) ["VIP"; "Regular"; "New"]%string /\
  (segment_rank (categorize_customer r1) <= segment_rank (categorize_customer r2))%nat.
Proof.
  intros Hs Hc. unfold categorize_customer.
  destruct (Nat.ltb_spec 10 (order_count r1)); destruct (Nat.ltb_spec 5 (order_count r1));
    destruct (Nat.ltb_spec 10 (order_count r2)); destruct (Nat.ltb_spec 5 (order_count r2));
    try (exfalso; lia);
    qcases; try (exfalso; lra); cbn; (split; [tauto | lia]).
Qed.

Lemma segment_monotone_witness :
  (segment_rank (categorize_customer (mkCustomerAgg 1500 3 None None))
   <= segment_rank (categorize_customer (mkCustomerAgg 2500 12 None None)))%nat.
Proof.
  apply (segment_monotone (mkCustomerAgg 1500 3 None None)
                          (mkCustomerAgg 2500 12 None None)).
  - cbn. lra.
  - cbn. lia.
Defined.

(** ** The segment join *)

Lemma lookup_in {V : Type} (k : string) (tbl : list (string * V)) :
  In k (map fst tbl) -> lookup k tbl <> None.
Proof.
  induction tbl as [| [k' v] tbl IH]; cbn; [contradiction |].
  destruct (String.eqb_spec k k'); [discriminate |].
  intros [H | H]; [congruence | now apply IH].
Qed.

Lemma merge_rows (df : list enriched) :
  map fst (merge_segment df (customer_stats df)) = keyed customer_key df.
Proof.
  assert (H : forall part,
             incl part df ->
             map fst (merge_segment part (customer_stats df)) = keyed customer_key part).
  { induction part as [| e part IH]; intros Hincl; [reflexivity |].
    assert (Hrest : incl part df) by (intros x Hx; apply Hincl; now right).
    cbn [merge_segment keyed filter]. unfold customer_key at 1.
    destruct (customer_id (base e)) as [c |] eqn:Ec; cbn [isnull negb].
    - assert (Hin : In c (map fst (customer_stats df))).
      { apply customer_ids_in. apply in_map_iff. exists e.
        split; [exact Ec | apply Hincl; now left]. }
      apply lookup_in in Hin.
      destruct (lookup c (customer_stats df)); [| congruence].
      cbn. f_equal. now apply IH.
    - now apply IH. }
  apply H, incl_refl.
Qed.

Lemma lookup_some {V : Type} (k : string) (v : V) (tbl : list (string * V)) :
  lookup k tbl = Some v -> In (k, v) tbl.
Proof.
  induction tbl as [| [k' v'] tbl IH]; cbn; [discriminate |].
  destruct (String.eqb_spec k k') as [<- | _].
  - intros H. inversion H. now left.
  - intros H. right. now apply IH.
Qed.

(** X10: the join of the transactions with the customer segments keeps
    exactly the transactions that have a customer_id, in batch order, and
    attaches to each the segment of the aggregate of its own customer. *)
Theorem merge_keeps_customers (df : list enriched) :
  let joined := merge_segment df (customer_stats df) in
  map fst joined = keyed customer_key df /\
  Forall (fun es =>
            exists c row,
              customer_key (fst es) = Some c /\
              In (c, row) (customer_stats df) /\
              snd es = segment row)
         joined.
Proof.
  cbn zeta. split; [exact (merge_rows df) |].
  set (cs := customer_stats df). generalize df at 1 as part.
  induction part as [| e part IH]; cbn [merge_segment]; [constructor |].
  destruct (customer_id (base e)) as [c |] eqn:Ec; [| exact IH].
  destruct (lookup c cs) as [row |] eqn:El; [| exact IH].
  constructor; [| exact IH].
  exists c, row. cbn [fst snd]. repeat split.
  - exact Ec.
  - now apply lookup_some.
Qed.

(** ** Latest purchase *)

Lemma coherent_lex (ab bc ac ab' bc' ac' : comparison) :
  coherent ab bc ac -> coherent ab' bc' ac' ->
  coherent (lex ab ab') (lex bc bc') (lex ac ac').
Proof.
  unfold coherent. intros [H1 [H2 [H3 H4]]] [H1' [H2' [H3' H4']]].
  destruct ab, bc; cbn;
    repeat match goal with
           | H : ?x = ?x -> _ |- _ => specialize (H eq_refl)
           end;
    subst; cbn; repeat split; intros; try discriminate; try tauto; try congruence;
    try (destruct ac; cbn; (discriminate || tauto || congruence)).
Qed.

Lemma coherent_Z (a b c : Z) : coherent (a ?= b)%Z (b ?= c)%Z (a ?= c)%Z.
Proof.
  unfold coherent.
  destruct (Z.compare_spec a b), (Z.compare_spec b c), (Z.compare_spec a c);
    repeat split; intros; try discriminate; try reflexivity; try lia.
Qed.

Lemma coherent_datetime (a b c : datetime) :
  coherent (datetime_compare a b) (datetime_compare b c) (datetime_compare a c).
Proof.
  unfold datetime_compare. repeat apply coherent_lex; apply coherent_Z.
Qed.

Lemma datetime_compare_refl (a : datetime) : datetime_compare a a = Eq.
Proof.
  unfold datetime_compare. now rewrite !Z.compare_refl.
Qed.

Lemma lex_opp (c c' : comparison) : CompOpp (lex c c') = lex (CompOpp c) (CompOpp c').
Proof. now destruct c. Qed.

Lemma datetime_compare_antisym (a b : datetime) :
  datetime_compare b a = CompOpp (datetime_compare a b).
Proof.
  unfold datetime_compare. rewrite !lex_opp, <- !Z.compare_antisym. reflexivity.
Qed.

Lemma datetime_le_trans (a b c : datetime) :
  datetime_compare a b <> Gt -> datetime_compare b c <> Gt ->
  datetime_compare a c <> Gt.
Proof.
  destruct (coherent_datetime a b c) as [H1 [H2 [H3 _]]].
  destruct (datetime_compare a b), (datetime_compare b c); intros Hab Hbc;
    try congruence.
  - rewrite (H1 eq_refl). discriminate.
  - rewrite (H1 eq_refl). discriminate.
  - rewrite (H2 eq_refl). discriminate.
  - rewrite (H3 eq_refl eq_refl). discriminate.
Qed.

Lemma datetime_max_ge (a b : datetime) :
  datetime_compare a (datetime_max a b) <> Gt /\
  datetime_compare b (datetime_max a b) <> Gt /\
  (datetime_max a b = a \/ datetime_max a b = b).
Proof.
  unfold datetime_max.
  pose proof (datetime_compare_antisym a b) as Hanti.
  destruct (datetime_compare a b) eqn:E; cbn in Hanti.
  - rewrite datetime_compare_refl, Hanti. repeat split; try discriminate. now left.
  - rewrite datetime_compare_refl, E. repeat split; try discriminate. now right.
  - rewrite datetime_compare_refl, Hanti. repeat split; try discriminate. now left.
Qed.

Lemma fold_max_ge (rest : list datetime) (t : datetime) :
  let m := fold_left datetime_max rest t in
  In m (t :: rest) /\
  Forall (fun x => datetime_compare x m <> Gt) (t :: rest).
Proof.
  revert t. induction rest as [| y rest IH]; intros t; cbn [fold_left].
  - split; [now left |]. constructor; [| constructor].
    rewrite datetime_compare_refl. discriminate.
  - destruct (IH (datetime_max t y)) as [Hin Hall].
    destruct (datetime_max_ge t y) as [Ht [Hy Hor]].
    inversion Hall as [| ? ? Hm Hrest]; subst.
    split.
    + destruct Hin as [Hin | Hin]; [| right; now right].
      destruct Hor as [Hor | Hor]; [left | right; left];
        rewrite <- Hin; symmetry; exact Hor.
    + constructor; [exact (datetime_le_trans _ _ _ Ht Hm) |].
      constructor; [exact (datetime_le_trans _ _ _ Hy Hm) | exact Hrest].
Qed.

Lemma max_datetime_spec (col : list (option datetime)) :
  match max_datetime col with
  | Some m => In (Some m) col /\
              forall t, In (Some t) col -> datetime_compare t m <> Gt
  | None => forall t, ~ In (Some t) col
  end.
Proof.
  unfold max_datetime.
  destruct (dropna col) as [| t rest] eqn:E.
  - intros t Ht. apply in_dropna in Ht. rewrite E in Ht. contradiction.
  - destruct (fold_max_ge rest t) as [Hin Hall]. rewrite <- E in Hin, Hall. split.
    + now apply in_dropna.
    + intros x Hx. apply in_dropna in Hx.
      rewrite Forall_forall in Hall. now apply Hall.
Qed.

(** X11: the last_purchase of a customer is the date of one of the
    customer's records and no record of the customer has a later date; it
    is missing only when none of the customer's records has a date. *)
Theorem last_purchase_latest (df : list enriched) (k : string) (row : customer_row) :
  In (k, row) (customer_stats df) ->
  let dates :=
    map purchase_date
        (filter (fun e => option_string_eqb (customer_key e) (Some k)) df) in
  match last_purchase (stats row) with
  | Some m => In (Some m) dates /\
              forall t, In (Some t) dates -> datetime_compare t m <> Gt
  | None => forall t, ~ In (Some t) dates
  end.
Proof.
  intros Hin dates.
  destruct (customer_stats_in df k row Hin) as [rows [Hg [Hstats _]]].
  destruct (groupby_str_rows _ df k rows Hg) as [Hrows _].
  rewrite Hstats. unfold aggregate_customer. cbn [last_purchase].
  subst rows. exact (max_datetime_spec dates).
Qed.

Lemma last_purchase_latest_witness :
  let df := map enrich (raw_after (run_pipeline strptime two_orders)) in
  let row := first_row (customer_stats df) (mkCustomerRow (mkCustomerAgg 0 0 None None) "New") in
  In ("CUST1"%string, row) (customer_stats df) /\
  last_purchase (stats row) = Some (mkDatetime 2024 1 16 11 0 0) /\
  datetime_compare (mkDatetime 2024 1 15 10 30 0) (mkDatetime 2024 1 16 11 0 0) <> Gt.
Proof.
  intros df row.
  assert (Hin : In ("CUST1"%string, row) (customer_stats df)) by (left; reflexivity).
  pose proof (last_purchase_latest df "CUST1"%string row Hin) as H.
  cbn zeta in H.
  change (last_purchase (stats row)) with (Some (mkDatetime 2024 1 16 11 0 0)) in H.
  cbn iota in H. destruct H as [_ H].
  split; [exact Hin |]. split; [reflexivity |].
  apply H. left. reflexivity.
Defined.

(** ** Revenue breakdowns *)

Lemma insert_desc_sorted {A : Type} (val : A -> Q) (x : A) (l : list A) :
  StronglySorted (fun a b => val b <= val a) l ->
  StronglySorted (fun a b => val b <= val a) (insert_desc val x l).
Proof.
  induction l as [| y l IH]; cbn; intros Hs.
  - repeat constructor.
  - inversion Hs as [| ? ? Hs' Hy]; subst.
    destruct (Qltb (val x) (val y)) eqn:E.
    + apply Qltb_lt in E. constructor; [now apply IH |].
      apply Forall_forall. intros z Hz.
      apply (Permutation_in _ (insert_desc_perm val x l)) in Hz.
      destruct Hz as [<- | Hz]; [lra |].
      rewrite Forall_forall in Hy. now apply Hy.
    + apply Qltb_ge in E. constructor; [assumption |].
      constructor; [exact E |].
      eapply Forall_impl; [| exact Hy]. intros z Hz. cbn beta in Hz. lra.
Qed.

Lemma sort_values_desc_sorted {A : Type} (val : A -> Q) (l : list A) :
  StronglySorted (fun a b => val b <= val a) (sort_values_desc val l).
Proof.
  induction l as [| x l IH]; cbn; [constructor | now apply insert_desc_sorted].
Qed.

Lemma Forall_map_fst {A B : Type} (f : A -> B) (l : list (A * B)) :
  Forall (fun kv => snd kv = f (fst kv)) l -> l = map (fun c => (c, f c)) (map fst l).
Proof.
  induction 1 as [| [k v] l Hk _ IH]; cbn; [reflexivity |].
  cbn in Hk. subst v. now f_equal.
Qed.

Lemma breakdown_sorted (key : enriched -> option string) (df : list enriched) :
  breakdown key df (sort_values_desc snd (revenue_by str_cmp key df)).
Proof.
  set (tbl := revenue_by str_cmp key df).
  pose proof (sort_values_desc_perm snd tbl) as Hperm.
  assert (Hkeys : map fst tbl = map fst (groupby str_cmp key df)).
  { unfold tbl, revenue_by, agg. now rewrite map_map. }
  assert (Hin : forall c, In c (map fst (sort_values_desc snd tbl)) <->
                          In (Some c) (map key df)).
  { intros c. rewrite <- (groupby_keys str_cmp key str_cmp_eq df c), <- Hkeys.
    split; apply Permutation_in, Permutation_map;
      [exact Hperm | symmetry; exact Hperm]. }
  unfold breakdown. repeat split.
  - apply sort_values_desc_sorted.
  - apply (Permutation_NoDup (Permutation_map fst (Permutation_sym Hperm))).
    rewrite Hkeys. apply (sorted_keys_nodup str_cmp str_cmp_refl).
    exact (groupby_sorted str_cmp key str_cmp_trans str_cmp_gt df).
  - apply Hin.
  - apply Hin.
  - apply (Forall_map_fst
             (fun c => sum_skipna
                         (amounts (filter (fun e => option_string_eqb (key e) (Some c)) df)))).
    apply Forall_forall. intros [c v] Hcv.
    apply (Permutation_in _ Hperm) in Hcv.
    unfold tbl, revenue_by, agg in Hcv. apply in_map_iff in Hcv.
    destruct Hcv as [[c' rows] [Heq Hg]]. cbn in Heq. inversion Heq; subst.
    destruct (groupby_str_rows key df c rows Hg) as [Hrows _].
    cbn [fst snd]. now rewrite Hrows.
Qed.

(** X12: revenue_by_category and revenue_by_channel have one row per
    category (channel) that occurs, holding the sum of total_amount over
    the records of that category (channel); rows come in descending order
    of revenue. *)
Theorem revenue_breakdowns (df : list enriched) :
  breakdown category_key df (revenue_by_category df) /\
  breakdown channel_key df (revenue_by_channel df).
Proof.
  split; apply breakdown_sorted.
Qed.

(** ** The product ranking *)


(** ** Tables in time order *)

Lemma Z_compare_gt_lt (a b : Z) : (a ?= b)%Z = Gt -> (b ?= a)%Z = Lt.
Proof. intros H. now rewrite Z.compare_antisym, H. Qed.

Lemma Z_compare_trans (a b c : Z) :
  (a ?= b)%Z = Lt -> (b ?= c)%Z = Lt -> (a ?= c)%Z = Lt.
Proof. rewrite !Z.compare_lt_iff. lia. Qed.

Lemma date_cmp_coherent (a b c : Z * Z * Z) :
  coherent (date_cmp a b) (date_cmp b c) (date_cmp a c).
Proof.
  unfold date_cmp, pair_cmp. repeat apply coherent_lex; apply coherent_Z.
Qed.

Lemma date_cmp_trans (a b c : Z * Z * Z) :
  date_cmp a b = Lt -> date_cmp b c = Lt -> date_cmp a c = Lt.
Proof.
  intros H1 H2. now apply (date_cmp_coherent a b c).
Qed.

Lemma date_cmp_gt (a b : Z * Z * Z) : date_cmp a b = Gt -> date_cmp b a = Lt.
Proof.
  intros H.
  assert (Hanti : date_cmp b a = CompOpp (date_cmp a b)).
  { unfold date_cmp, pair_cmp. rewrite !lex_opp, <- !Z.compare_antisym. reflexivity. }
  now rewrite Hanti, H.
Qed.

Lemma revenue_by_keys {K : Type} (cmp : K -> K -> comparison)
    (key : enriched -> option K) (df : list enriched) :
  map fst (revenue_by cmp key df) = map fst (groupby cmp key df).
Proof.
  unfold revenue_by, agg. now rewrite map_map.
Qed.

Section GroupRows.
Context {K V : Type}.
Variable cmp : K -> K -> comparison.
Variable key : V -> option K.
Hypothesis cmp_eq : forall a b, cmp a b = Eq -> a = b.
Hypothesis cmp_refl : forall a, cmp a a = Eq.
Hypothesis cmp_trans : forall a b c, cmp a b = Lt -> cmp b c = Lt -> cmp a c = Lt.
Hypothesis cmp_gt : forall a b, cmp a b = Gt -> cmp b a = Lt.

(** The group of a key is the list of the rows that have the key, in
    frame order. *)
Lemma groupby_rows (df : list V) (k : K) (rows : list V) :
  In (k, rows) (groupby cmp key df) -> rows = filter (has_key cmp key k) df.
Proof.
  intros Hin.
  rewrite <- (rows_of_groupby cmp key cmp_eq cmp_refl cmp_trans cmp_gt).
  symmetry. apply (rows_of_in cmp cmp_eq cmp_refl cmp_trans); [| exact Hin].
  exact (groupby_sorted cmp key cmp_trans cmp_gt df).
Qed.
End GroupRows.

Lemma lex_eq (c c' : comparison) : lex c c' = Eq -> c = Eq /\ c' = Eq.
Proof. destruct c; cbn; intros H; try discriminate; auto. Qed.

Lemma date_cmp_eq (a b : Z * Z * Z) : date_cmp a b = Eq -> a = b.
Proof.
  destruct a as [[y m] d], b as [[y' m'] d']. unfold date_cmp, pair_cmp. cbn [fst snd].
  intros H. apply lex_eq in H. destruct H as [H Hd].
  apply lex_eq in H. destruct H as [Hy Hm].
  apply Z.compare_eq in Hy, Hm, Hd. now subst.
Qed.

Lemma date_cmp_refl (a : Z * Z * Z) : date_cmp a a = Eq.
Proof.
  unfold date_cmp, pair_cmp. now rewrite !Z.compare_refl.
Qed.

Lemma date_eqb_eq (a b : Z * Z * Z) : date_eqb a b = true <-> a = b.
Proof.
  destruct a as [[y m] d], b as [[y' m'] d']. unfold date_eqb. cbn [fst snd].
  rewrite !andb_true_iff, !Z.eqb_eq. split.
  - intros [[-> ->] ->]. reflexivity.
  - intros H. inversion H. auto.
Qed.

Lemma revenue_by_time_table {K : Type} (cmp : K -> K -> comparison)
    (eqb : K -> K -> bool) (key : enriched -> option K) (df : list enriched) :
  (forall a b, cmp a b = Eq -> a = b) ->
  (forall a, cmp a a = Eq) ->
  (forall a b c, cmp a b = Lt -> cmp b c = Lt -> cmp a c = Lt) ->
  (forall a b, cmp a b = Gt -> cmp b a = Lt) ->
  (forall a b, eqb a b = true <-> a = b) ->
  time_table (key_lt cmp) eqb key df (revenue_by cmp key df).
Proof.
  intros Heq Hrefl Htrans Hgt Heqb. unfold time_table. rewrite revenue_by_keys.
  split; [| split].
  - exact (groupby_sorted cmp key Htrans Hgt df).
  - intros k. apply (groupby_keys cmp key Heq).
  - unfold revenue_by, agg. rewrite map_map. apply map_ext_in.
    intros [k rows] Hin. cbn [fst snd]. f_equal. f_equal. f_equal.
    rewrite (groupby_rows cmp key Heq Hrefl Htrans Hgt df k rows Hin).
    apply filter_ext. intros e. unfold has_key, key_is.
    destruct (key e) as [k' |]; [| reflexivity].
    destruct (cmp k k') eqn:E.
    + apply Heq in E. subst k'. symmetry. now apply Heqb.
    + destruct (eqb k k') eqn:E'; [| reflexivity].
      apply Heqb in E'. subst k'. now rewrite Hrefl in E.
    + destruct (eqb k k') eqn:E'; [| reflexivity].
      apply Heqb in E'. subst k'. now rewrite Hrefl in E.
Qed.

(** X13: hourly_sales has one row for each hour that occurs in the batch,
    hours strictly ascending, and daily_revenue one row for each calendar
    day that occurs, days strictly ascending; each row holds the sum of
    total_amount over the records of that hour (day). *)
Theorem tables_in_time_order (df : list enriched) :
  time_table Z.lt Z.eqb hour df (hourly_sales df) /\
  time_table (fun a b => date_cmp a b = Lt) date_eqb date_key df (daily_revenue df).
Proof.
  split.
  - exact (revenue_by_time_table Z.compare Z.eqb hour df Z.compare_eq Z.compare_refl
             Z_compare_trans Z_compare_gt_lt Z.eqb_eq).
  - exact (revenue_by_time_table date_cmp date_eqb date_key df date_cmp_eq date_cmp_refl
             date_cmp_trans date_cmp_gt date_eqb_eq).
Qed.

(** ** The peak hour *)

Lemma idxmax_from_split {K : Type} (l before after : list (K * Q)) (best : K * Q) :
  Forall (fun kv => snd kv < snd best) before ->
  Forall (fun kv => snd kv <= snd best) after ->
  exists v before' after',
    before ++ best :: after ++ l = before' ++ (idxmax_from best l, v) :: after' /\
    Forall (fun kv => snd kv < v) before' /\
    Forall (fun kv => snd kv <= v) after'.
Proof.
  revert before after best.
  induction l as [| kv l IH]; intros before after best Hb Ha; cbn [idxmax_from].
  - exists (snd best), before, after. rewrite app_nil_r.
    destruct best. cbn. auto.
  - destruct (Qltb (snd best) (snd kv)) eqn:E.
    + apply Qltb_lt in E.
      destruct (IH (before ++ best :: after) [] kv) as [v [b' [a' [Heq [H1 H2]]]]].
      * apply Forall_app. split.
        -- eapply Forall_impl; [| exact Hb]. intros z Hz. cbn beta in Hz. lra.
        -- constructor; [exact E |].
           eapply Forall_impl; [| exact Ha]. intros z Hz. cbn beta in Hz. lra.
      * constructor.
      * exists v, b', a'. split; [| auto].
        rewrite <- Heq. cbn. now rewrite <- !app_assoc.
    + apply Qltb_ge in E.
      destruct (IH before (after ++ [kv]) best) as [v [b' [a' [Heq [H1 H2]]]]].
      * exact Hb.
      * apply Forall_app. split; [exact Ha | now constructor].
      * exists v, b', a'. split; [| auto].
        rewrite <- Heq. now rewrite <- !app_assoc.
Qed.

Lemma hourly_sales_nil (df : list enriched) :
  hourly_sales df = [] <-> Forall (fun e => hour e = None) df.
Proof.
  unfold hourly_sales, revenue_by, agg. rewrite <- groupby_nil_iff. split.
  - apply map_eq_nil.
  - intros ->. reflexivity.
Qed.

(** X14: peak_hour raises ValueError exactly when no record has an hour;
    otherwise it is the first hour in hourly_sales whose revenue is the
    largest: every earlier row has less revenue and no later row has
    more. *)
Theorem peak_hour_first_max (df : list enriched) :
  (peak_hour df = Raise ValueError <-> Forall (fun e => hour e = None) df) /\
  match peak_hour df with
  | Ok h =>
      exists v before after,
        hourly_sales df = before ++ (h, v) :: after /\
        Forall (fun kv => snd kv < v) before /\
        Forall (fun kv => snd kv <= v) after
  | Raise e => e = ValueError
  end.
Proof.
  rewrite <- hourly_sales_nil. unfold peak_hour, idxmax.
  destruct (hourly_sales df) as [| kv rest] eqn:E.
  - split; [split; reflexivity | reflexivity].
  - split; [split; discriminate |].
    destruct (idxmax_from_split rest [] [] kv) as [v [b [a [Heq H]]]];
      try constructor.
    exists v, b, a. split; [exact Heq | exact H].
Qed.

(** ** Weekend and weekday *)

Lemma bool_cmp_trans (a b c : bool) :
  bool_cmp a b = Lt -> bool_cmp b c = Lt -> bool_cmp a c = Lt.
Proof. destruct a, b, c; cbn; congruence. Qed.

Lemma bool_cmp_gt (a b : bool) : bool_cmp a b = Gt -> bool_cmp b a = Lt.
Proof. destruct a, b; cbn; congruence. Qed.

Lemma bool_cmp_refl (a : bool) : bool_cmp a a = Eq.
Proof. now destruct a. Qed.

Lemma nodup_bool_length (l : list bool) : NoDup l -> (List.length l <= 2)%nat.
Proof.
  intros H.
  assert (Hincl : incl l [true; false]).
  { intros b _. destruct b; cbn; auto. }
  exact (NoDup_incl_length H Hincl).
Qed.

Lemma bool_cmp_eq (a b : bool) : bool_cmp a b = Eq -> a = b.
Proof. destruct a, b; cbn; congruence. Qed.

Lemma is_weekend_added (df : list enriched) :
  map is_weekend (map add_is_weekend df) = map (fun e => Some (weekend_day e)) df.
Proof. rewrite map_map. reflexivity. Qed.

(** The labels of the weekend table are the sides that have a record. *)
Lemma weekend_labels (df : list enriched) (b : bool) :
  In b (map fst (weekend_performance (map add_is_weekend df))) <-> side b df <> [].
Proof.
  unfold weekend_performance, agg. rewrite map_map. cbn [fst].
  change (map (fun g : bool * list enriched => fst g)) with (@map (bool * list enriched) _ fst).
  rewrite (groupby_keys bool_cmp is_weekend bool_cmp_eq), is_weekend_added.
  rewrite in_map_iff. unfold side. split.
  - intros [e [He Hin]] Hnil. inversion He; subst.
    assert (Hf : In e (filter (fun e' => Bool.eqb (weekend_day e') (weekend_day e)) df)).
    { apply filter_In. split; [exact Hin | apply eqb_reflx]. }
    rewrite Hnil in Hf. exact Hf.
  - intros Hne.
    destruct (filter (fun e => Bool.eqb (weekend_day e) b) df) as [| e rest] eqn:E;
      [now elim Hne |].
    assert (Hf : In e (filter (fun e => Bool.eqb (weekend_day e) b) df))
      by (rewrite E; now left).
    apply filter_In in Hf. destruct Hf as [Hin Hb].
    exists e. split; [| exact Hin]. f_equal. now apply eqb_prop.
Qed.

Lemma loc_raise {V : Type} (label : bool) (tbl : list (bool * V)) :
  match loc label tbl with
  | Ok _ => In label (map fst tbl)
  | Raise e => e = KeyError /\ ~ In label (map fst tbl)
  end.
Proof.
  induction tbl as [| [k v] tbl IH]; cbn; [split; [reflexivity | tauto] |].
  destruct (Bool.eqb label k) eqn:E.
  - left. symmetry. now apply eqb_prop.
  - destruct (loc label tbl).
    + now right.
    + destruct IH as [He Hn]. split; [exact He |].
      intros [H | H]; [| contradiction].
      subst k. now rewrite eqb_reflx in E.
Qed.

(** X15: once the is_weekend column is added, weekend_performance has a
    row for the weekday side (a record without a date is on that side)
    and a row for the weekend side, in that order, each present exactly
    when the side has a record and holding the sum and the mean of
    total_amount over the records of the side; reading a side that has no
    record raises KeyError. *)
Theorem weekend_split (df : list enriched) :
  let tbl := weekend_performance (map add_is_weekend df) in
  StronglySorted (fun a b => bool_cmp a b = Lt) (map fst tbl) /\
  (List.length tbl <= 2)%nat /\
  (forall b, In b (map fst tbl) <-> side b df <> []) /\
  tbl = map (fun b => (b, (sum_skipna (amounts (side b df)),
                           mean_skipna (amounts (side b df)))))
            (map fst tbl) /\
  (forall b, loc b tbl = Raise KeyError <-> side b df = []).
Proof.
  cbn zeta. set (wk := map add_is_weekend df).
  assert (Hs : StronglySorted (key_lt bool_cmp) (map fst (weekend_performance wk))).
  { unfold weekend_performance, agg. rewrite map_map. cbn [fst].
    exact (groupby_sorted bool_cmp is_weekend bool_cmp_trans bool_cmp_gt wk). }
  split; [exact Hs |]. split; [| split; [| split]].
  - rewrite <- (length_map fst).
    now apply nodup_bool_length, (sorted_keys_nodup bool_cmp bool_cmp_refl).
  - apply weekend_labels.
  - unfold weekend_performance, agg. rewrite !map_map. apply map_ext_in.
    intros [b rows] Hin. cbn [fst snd].
    rewrite (groupby_rows bool_cmp is_weekend bool_cmp_eq bool_cmp_refl bool_cmp_trans
               bool_cmp_gt wk b rows Hin).
    assert (Ha : amounts (filter (has_key bool_cmp is_weekend b) wk)
                 = amounts (side b df)).
    { unfold wk, side, amounts. clear. induction df as [| e df IH]; [reflexivity |].
      cbn [map filter]. unfold has_key at 1. cbn [is_weekend add_is_weekend].
      fold (weekend_day e).
      destruct b, (weekend_day e); cbn; now rewrite ?IH. }
    now rewrite Ha.
  - intros b. pose proof (loc_raise b (weekend_performance wk)) as Hloc.
    pose proof (weekend_labels df b) as Hlab. fold wk in Hlab.
    destruct (loc b (weekend_performance wk)) as [v | e].
    + split; [discriminate |]. intros Hnil. exfalso. now apply Hlab in Hloc.
    + destruct Hloc as [-> Hn]. split; [| reflexivity].
      intros _. destruct (side b df) eqn:E; [reflexivity |].
      exfalso. apply Hn, Hlab. discriminate.
Qed.

(** ** The outcome of steps 3 to 6 *)

Lemma existsb_map {A B : Type} (f : B -> bool) (g : A -> B) (l : list A) :
  existsb f (map g l) = existsb (fun a => f (g a)) l.
Proof.
  induction l as [| a l IH]; cbn; [reflexivity | now rewrite IH].
Qed.

Lemma existsb_pointwise {A : Type} (f g : A -> bool) (l : list A) :
  (forall a, f a = g a) -> existsb f l = existsb g l.
Proof.
  intros H. induction l as [| a l IH]; cbn; [reflexivity | now rewrite H, IH].
Qed.

Lemma groupby_nil_existsb {K V : Type} (cmp : K -> K -> comparison)
    (key : V -> option K) (df : list V) :
  groupby cmp key df = [] <-> existsb (fun r => negb (isnull (key r))) df = false.
Proof.
  rewrite groupby_nil_iff. induction df as [| r df IH]; cbn.
  - split; [reflexivity | constructor].
  - rewrite orb_false_iff, <- IH. split.
    + intros H. inversion H as [| ? ? Hr Hrest]; subst. rewrite Hr. auto.
    + intros [Hr Hrest]. constructor; [| exact Hrest].
      destruct (key r); [discriminate | reflexivity].
Qed.

Lemma sorted_nil {A : Type} (val : A -> Q) (l : list A) :
  sort_values_desc val l = [] <-> l = [].
Proof.
  split; intros H.
  - apply Permutation_nil. rewrite <- H. apply sort_values_desc_perm.
  - now subst.
Qed.

Lemma first_label_raise {K V : Type} (s : list (K * V)) :
  match first_label s with
  | Ok _ => s <> []
  | Raise e => e = IndexError /\ s = []
  end.
Proof. destruct s; cbn; [auto | discriminate]. Qed.

Lemma revenue_table_nil (key : transaction -> option string) (df_raw : list transaction) :
  sort_values_desc snd (revenue_by str_cmp (fun e => key (base e)) (map enrich df_raw)) = []
  <-> existsb (fun r => negb (isnull (key r))) df_raw = false.
Proof.
  rewrite sorted_nil. unfold revenue_by, agg.
  rewrite <- (existsb_map (fun e => negb (isnull (key (base e)))) enrich).
  rewrite <- (groupby_nil_existsb str_cmp (fun e => key (base e))). split.
  - apply map_eq_nil.
  - intros ->. reflexivity.
Qed.

Lemma hourly_sales_dated (df_raw : list transaction) :
  hourly_sales (map enrich df_raw) = [] <-> existsb dated df_raw = false.
Proof.
  unfold hourly_sales, revenue_by, agg.
  rewrite (existsb_pointwise dated (fun r => negb (isnull (hour (enrich r))))).
  - rewrite <- (existsb_map (fun e => negb (isnull (hour e))) enrich).
    rewrite <- (groupby_nil_existsb Z.compare hour). split.
    + apply map_eq_nil.
    + intros ->. reflexivity.
  - intros r. unfold dated. cbn. now destruct (dt (transaction_date r)).
Qed.

Lemma side_raw (b : bool) (df_raw : list transaction) :
  side b (map enrich df_raw) = []
  <-> existsb (fun r => Bool.eqb (on_weekend r) b) df_raw = false.
Proof.
  unfold side. induction df_raw as [| r df IH]; cbn [map filter existsb].
  - split; reflexivity.
  - change (weekend_day (enrich r)) with (on_weekend r).
    destruct (Bool.eqb (on_weekend r) b); cbn.
    + split; discriminate.
    + exact IH.
Qed.

(** X4: steps 3 to 6 stop at the first of their statements that finds
    nothing to read: IndexError at the prints of the top category and the
    best channel when no record has a category or none has a sales
    channel; else ValueError at [idxmax] when no record has a timestamp;
    else KeyError at the print of the weekend and weekday revenue when no
    record falls on a Saturday or Sunday, or none falls outside them.
    They yield their tables in the remaining case only. *)
Theorem analytics_outcome (df_raw : list transaction) :
  let labelled := existsb has_category df_raw && existsb has_channel df_raw in
  let timed := existsb dated df_raw in
  let both_sides := existsb on_weekend df_raw && existsb on_weekday df_raw in
  match analytics df_raw with
  | Raise IndexError => labelled = false
  | Raise ValueError => labelled = true /\ timed = false
  | Raise KeyError => labelled = true /\ timed = true /\ both_sides = false
  | Ok _ => labelled = true /\ timed = true /\ both_sides = true
  end.
Proof.
  cbn zeta. unfold analytics. cbn zeta.
  assert (Hcat : revenue_by_category (map enrich df_raw) = []
                 <-> existsb has_category df_raw = false)
    by exact (revenue_table_nil category df_raw).
  assert (Hchan : revenue_by_channel (map enrich df_raw) = []
                  <-> existsb has_channel df_raw = false)
    by exact (revenue_table_nil sales_channel df_raw).
  pose proof (hourly_sales_dated df_raw) as Hhour.
  pose proof (first_label_raise (revenue_by_category (map enrich df_raw))) as Hl1.
  destruct (first_label (revenue_by_category (map enrich df_raw))) as [c |];
    cbn [bind].
  2:{ destruct Hl1 as [-> Hnil]. apply Hcat in Hnil. now rewrite Hnil. }
  assert (Ec : existsb has_category df_raw = true).
  { destruct (existsb has_category df_raw); [reflexivity |].
    exfalso. apply Hl1. now apply Hcat. }
  pose proof (first_label_raise (revenue_by_channel (map enrich df_raw))) as Hl2.
  destruct (first_label (revenue_by_channel (map enrich df_raw))) as [ch |];
    cbn [bind].
  2:{ destruct Hl2 as [-> Hnil]. apply Hchan in Hnil. rewrite Hnil. apply andb_false_r. }
  assert (Ech : existsb has_channel df_raw = true).
  { destruct (existsb has_channel df_raw); [reflexivity |].
    exfalso. apply Hl2. now apply Hchan. }
  rewrite Ec, Ech. cbn [andb].
  unfold idxmax.
  destruct (hourly_sales (map enrich df_raw)) as [| kv rest] eqn:Eh; cbn [bind].
  { split; [reflexivity |]. now apply Hhour. }
  assert (Et : existsb dated df_raw = true).
  { destruct (existsb dated df_raw); [reflexivity |].
    assert (Hnil : kv :: rest = []) by now apply Hhour. discriminate Hnil. }
  rewrite Et.
  set (tbl := weekend_performance (map add_is_weekend (map enrich df_raw))).
  assert (Hside : forall b, In b (map fst tbl) <->
                            existsb (fun r => Bool.eqb (on_weekend r) b) df_raw = true).
  { intros b. unfold tbl. rewrite weekend_labels.
    pose proof (side_raw b df_raw) as Hs.
    destruct (existsb (fun r => Bool.eqb (on_weekend r) b) df_raw).
    - split; [reflexivity |]. intros _ Hnil. apply Hs in Hnil. discriminate.
    - split; [| discriminate]. intros Hne. exfalso. now apply Hne, Hs. }
  assert (Hwe : existsb on_weekend df_raw
                = existsb (fun r => Bool.eqb (on_weekend r) true) df_raw).
  { apply existsb_pointwise. intros r. now destruct (on_weekend r). }
  assert (Hwd : existsb on_weekday df_raw
                = existsb (fun r => Bool.eqb (on_weekend r) false) df_raw).
  { apply existsb_pointwise. intros r. unfold on_weekday. now destruct (on_weekend r). }
  rewrite Hwe, Hwd.
  pose proof (loc_raise true tbl) as Ht.
  destruct (loc true tbl) as [vt |]; cbn [bind].
  2:{ destruct Ht as [-> Hn]. repeat split.
      destruct (existsb (fun r => Bool.eqb (on_weekend r) true) df_raw) eqn:E;
        [| reflexivity].
      exfalso. now apply Hn, Hside. }
  apply Hside in Ht. rewrite Ht. cbn [andb].
  pose proof (loc_raise false tbl) as Hf.
  destruct (loc false tbl) as [vf |]; cbn [bind].
  - apply Hside in Hf. rewrite Hf. auto.
  - destruct Hf as [-> Hn]. repeat split.
    destruct (existsb (fun r => Bool.eqb (on_weekend r) false) df_raw) eqn:E;
      [| reflexivity].
    exfalso. now apply Hn, Hside.
Qed.

(** A batch of weekday orders only stops at the print of the weekend
    revenue. *)
Example weekday_only_run :
  outcome (run_pipeline strptime two_orders) = Raise KeyError.
Proof. vm_compute. reflexivity. Qed.

(** ** Generated data *)

Lemma to_uint_nonnil (n : nat) : Nat.to_uint n <> Decimal.Nil.
Proof.
  intros H. pose proof (Unsigned.of_to n) as E.
  rewrite H in E. cbn in E. subst n. discriminate H.
Qed.

Lemma str_of_nat_inj (n m : nat) : str_of_nat n = str_of_nat m -> n = m.
Proof.
  unfold str_of_nat. intros H.
  apply (f_equal NilZero.uint_of_string) in H.
  rewrite !NilZero.usu in H by apply to_uint_nonnil.
  inversion H as [E]. now apply Unsigned.to_uint_inj.
Qed.

Lemma sales_from_ids (i : nat) (draws : list draw) :
  map transaction_id (sales_from i draws)
  = map (fun j => Some ("TXN" ++ str_of_nat (1000 + j))%string)
        (seq i (List.length draws)).
Proof.
  revert i. induction draws as [| d draws IH]; intros i; cbn [sales_from map seq List.length].
  - reflexivity.
  - now rewrite IH.
Qed.

Lemma sales_from_ids_nodup (i : nat) (draws : list draw) :
  NoDup (map transaction_id (sales_from i draws)).
Proof.
  rewrite sales_from_ids. apply Injective_map_NoDup; [| apply seq_NoDup].
  intros a b H. inversion H as [E]. apply str_of_nat_inj in E. lia.
Qed.

Lemma product_price_min (p : product) : In p products -> 79.99 <= p_price p.
Proof.
  unfold products. cbn [In].
  intros H. repeat (destruct H as [<- | H]; [cbn; lra |]). contradiction.
Qed.

Lemma sale_price_positive (i : nat) (d : draw) : valid_draw d -> price_ok (sale i d).
Proof.
  intros [Hp [Hlo [_ _]]]. unfold price_ok, sale. cbn [unit_price].
  pose proof (product_price_min _ Hp) as Hmin.
  destruct (round2_near (p_price (d_product d) * d_factor d)) as [Hr _].
  assert (Hx : 79.99 * 0.8 <= p_price (d_product d) * d_factor d) by nra.
  lra.
Qed.

Lemma sales_from_length (i : nat) (draws : list draw) :
  List.length (sales_from i draws) = List.length draws.
Proof.
  revert i. induction draws as [| d draws IH]; intros i; cbn; [reflexivity | now rewrite IH].
Qed.

Lemma sales_from_forall (P : transaction -> Prop) (i : nat) (draws : list draw) :
  Forall (fun d => forall j, P (sale j d)) draws -> Forall P (sales_from i draws).
Proof.
  intros H. revert i. induction H as [| d draws Hd _ IH]; intros i; cbn; constructor; auto.
Qed.

(** X16: whatever the generator draws within its ranges, the batch it
    builds passes validation with score 100 and no issue: no field is
    null, the transaction ids TXN1000, TXN1001, ... are distinct and every
    unit price is positive. *)
Theorem generated_batch_clean (draws : list draw) :
  Forall valid_draw draws ->
  validate_data_quality (sales_data draws) = mkReport (List.length draws) [] 100.
Proof.
  intros Hvalid. unfold sales_data.
  assert (Hm : (0 <? list_sum (missing_data (sales_from 0 draws)))%nat = false).
  { apply Nat.ltb_ge, Nat.le_ngt. rewrite missing_values_pos.
    apply Forall_Exists_neg, sales_from_forall.
    apply Forall_forall. intros d _ j. cbn. discriminate. }
  assert (Hd : (0 <? duplicates (sales_from 0 draws))%nat = false).
  { apply Nat.ltb_ge, Nat.le_ngt. rewrite duplicates_pos.
    intros H. apply H, sales_from_ids_nodup. }
  assert (Hp : (0 <? negative_prices (sales_from 0 draws))%nat = false).
  { apply Nat.ltb_ge, Nat.le_ngt. rewrite negative_prices_pos.
    apply not_exists_price, sales_from_forall.
    eapply Forall_impl; [| exact Hvalid]. intros d Hvd j.
    now apply sale_price_positive. }
  unfold validate_data_quality. rewrite Hm, Hd, Hp, sales_from_length. reflexivity.
Qed.

Lemma generated_batch_clean_witness :
  validate_data_quality (sales_data [sample_draw; sample_draw]) = mkReport 2 [] 100.
Proof.
  apply (generated_batch_clean [sample_draw; sample_draw]).
  assert (Hv : valid_draw sample_draw).
  { unfold valid_draw. split; [do 6 right; left; reflexivity |].
    split; [apply Qle_bool_iff; reflexivity |].
    split; [apply Qle_bool_iff; reflexivity | cbn; lia]. }
  constructor; [exact Hv |]. constructor; [exact Hv | constructor].
Defined.

(** X17: in a generated record total_amount and unit_price are rounded
    separately from the unrounded price, so total_amount differs from
    unit_price times quantity by at most half a cent for the total plus
    half a cent for each unit. *)
Theorem generated_amount_near (i : nat) (d : draw) :
  (0 <= d_quantity d)%Z ->
  match unit_price (sale i d), total_amount (sale i d) with
  | Some u, Some a =>
      let q := inject_Z (d_quantity d) in
      u * q - (q + 1) * (1 # 200) <= a /\ a <= u * q + (q + 1) * (1 # 200)
  | _, _ => False
  end.
Proof.
  intros Hq. unfold sale. cbn [unit_price total_amount]. cbn zeta.
  set (p := p_price (d_product d) * d_factor d).
  assert (Hq' : 0 <= inject_Z (d_quantity d)).
  { change 0 with (inject_Z 0). now rewrite <- Zle_Qle. }
  set (q := inject_Z (d_quantity d)) in *. clearbody q p.
  destruct (round2_near p) as [H1 H2].
  destruct (round2_near (p * q)) as [H3 H4].
  split; nra.
Qed.

Lemma generated_amount_near_witness :
  (0 <= d_quantity sample_draw)%Z /\
  match unit_price (sale 0 sample_draw), total_amount (sale 0 sample_draw) with
  | Some u, Some a =>
      let q := inject_Z (d_quantity sample_draw) in
      u * q - (q + 1) * (1 # 200) <= a /\ a <= u * q + (q + 1) * (1 # 200)
  | _, _ => False
  end.
Proof.
  assert (Hq : (0 <= d_quantity sample_draw)%Z) by (cbn; lia).
  split; [exact Hq | exact (generated_amount_near 0 sample_draw Hq)].
Defined.

(** The two figures need not agree: a unit price of 80.004 sold five times
    gives unit_price 80.00 and total_amount 400.02. *)
Example generated_amount_differs :
  unit_price (sale 0 sample_draw) = Some 80.00 /\
  total_amount (sale 0 sample_draw) = Some 400.02.
Proof. split; vm_compute; reflexivity. Qed.

(** ** Retention rate *)

Lemma count_true_le {A : Type} (p : A -> bool) (l : list A) :
  (count_true p l <= List.length l)%nat.
Proof. unfold count_true. apply filter_length_le. Qed.

(** X18: the retention rate printed with the KPIs is undefined when there
    is no customer and otherwise lies between 0 and 100. *)
Theorem retention_rate_range (cs : list (string * customer_row)) :
  match retention_rate cs with
  | Some r => cs <> [] /\ 0 <= r /\ r <= 100
  | None => cs = []
  end.
Proof.
  unfold retention_rate.
  pose proof (count_true_le (fun kv => (1 <? order_count (stats (snd kv)))%nat) cs) as Hle.
  destruct cs as [| kv cs]; [reflexivity |].
  set (c := count_true _ _) in *.
  destruct (List.length (kv :: cs)) as [| n] eqn:En; [discriminate En |].
  clearbody c. cbn [float_div option_map].
  assert (Hc : 0 <= Qnat c).
  { unfold Qnat. change 0 with (inject_Z 0). rewrite <- Zle_Qle. lia. }
  assert (Hcn : Qnat c <= Qnat (S n)).
  { unfold Qnat. rewrite <- Zle_Qle. lia. }
  assert (Hpos : 0 < Qnat (S n)).
  { unfold Qnat. change 0 with (inject_Z 0). rewrite <- Zlt_Qlt. lia. }
  split; [discriminate |].
  assert (H0 : 0 <= Qnat c / Qnat (S n)).
  { apply Qle_shift_div_l; [exact Hpos | lra]. }
  assert (H1 : Qnat c / Qnat (S n) <= 1).
  { apply Qle_shift_div_r; [exact Hpos | lra]. }
  split; lra.
Qed.

(** ** Summary tables by region and by month *)

Lemma count_notna_with_amount {K : Type} (key : enriched -> option K) (df : list enriched) :
  count_notna (amounts (keyed key df)) = count_true (with_amount key) df.
Proof.
  unfold keyed, count_true, with_amount, amounts.
  induction df as [| e df IH]; [reflexivity |].
  cbn [filter]. destruct (key e); cbn [isnull negb andb].
  - cbn [map count_notna]. destruct (amount e); cbn; now rewrite IH.
  - exact IH.
Qed.

Lemma stats_counts {K : Type} (cmp : K -> K -> comparison) (key : enriched -> option K)
    (df : list enriched) :
  list_sum (count_column (agg aggregate_stats (groupby cmp key df)))
  = count_true (with_amount key) df.
Proof.
  unfold count_column, agg. rewrite map_map. cbn [snd aggregate_stats g_count].
  rewrite (count_groups (groupby cmp key df)). unfold amounts.
  rewrite (count_notna_perm _ _ (Permutation_map amount (groupby_perm cmp key df))).
  exact (count_notna_with_amount key df).
Qed.

Lemma pair_cmp_trans (a b c : Z * Z) :
  pair_cmp a b = Lt -> pair_cmp b c = Lt -> pair_cmp a c = Lt.
Proof.
  intros H1 H2.
  assert (Hc : coherent (pair_cmp a b) (pair_cmp b c) (pair_cmp a c)).
  { unfold pair_cmp. apply coherent_lex; apply coherent_Z. }
  now apply Hc.
Qed.

Lemma pair_cmp_gt (a b : Z * Z) : pair_cmp a b = Gt -> pair_cmp b a = Lt.
Proof.
  intros H.
  assert (Hanti : pair_cmp b a = CompOpp (pair_cmp a b)).
  { unfold pair_cmp. rewrite lex_opp, <- !Z.compare_antisym. reflexivity. }
  now rewrite Hanti, H.
Qed.

(** X19: regional_performance has its regions in ascending order and
    monthly_summary its months in calendar order, and in each table the
    transaction counts add up to the number of records that have the key
    (a region, a date) and a total_amount. *)
Theorem summary_counts (df : list enriched) :
  StronglySorted (key_lt str_cmp) (map fst (regional_performance df)) /\
  StronglySorted (key_lt pair_cmp) (map fst (monthly_summary df)) /\
  list_sum (count_column (regional_performance df)) = count_true (with_amount region_key) df /\
  list_sum (count_column (monthly_summary df)) = count_true (with_amount month_key) df.
Proof.
  unfold regional_performance, monthly_summary. repeat split.
  - unfold agg. rewrite map_map. cbn [fst].
    exact (groupby_sorted str_cmp region_key str_cmp_trans str_cmp_gt df).
  - unfold agg. rewrite map_map. cbn [fst].
    exact (groupby_sorted pair_cmp month_key pair_cmp_trans pair_cmp_gt df).
  - exact (stats_counts str_cmp region_key df).
  - exact (stats_counts pair_cmp month_key df).
Qed.

(** ** Export summary *)

Lemma groupby_keys_length (key : enriched -> option string) (df : list enriched) :
  List.length (groupby str_cmp key df)
  = List.length (nodup string_dec (dropna (map key df))).
Proof.
  rewrite <- (length_map fst).
  apply Permutation_length, NoDup_Permutation; [| apply NoDup_nodup |].
  - apply (sorted_keys_nodup str_cmp str_cmp_refl).
    exact (groupby_sorted str_cmp key str_cmp_trans str_cmp_gt df).
  - intros c. rewrite nodup_In, in_dropna.
    apply (groupby_keys str_cmp key str_cmp_eq).
Qed.

Lemma assign_keeps_keys (df : list transaction) (col : list date_cell) :
  List.length col = List.length df ->
  map category (assign_transaction_date df col) = map category df /\
  map sales_channel (assign_transaction_date df col) = map sales_channel df.
Proof.
  revert col. induction df as [| r df IH]; intros [| c col] Hlen;
    try discriminate; cbn; [auto |].
  injection Hlen as Hlen. destruct (IH col Hlen) as [H1 H2].
  now rewrite H1, H2.
Qed.

(** X20: in the export summary of a completed run the record count of
    sales_transactions is the size of the input batch, that of
    customer_segments is unique_customers, top_products has at most 5
    records, and the two revenue series have one record for each category
    and each sales channel of the batch. *)
Theorem export_summary_counts (parse : string -> parsed) (df : list transaction)
    (t : tables) :
  outcome (run_pipeline parse df) = Ok t ->
  map fst (export_summary t)
    = [ "sales_transactions"; "customer_segments"; "monthly_summary"; "top_products";
        "revenue_by_category"; "revenue_by_channel"; "daily_revenue" ]%string /\
  exported_records "sales_transactions" t = Some (List.length df) /\
  exported_records "customer_segments" t = Some (t_unique_customers t) /\
  (exists n, exported_records "top_products" t = Some n /\ (n <= 5)%nat) /\
  exported_records "revenue_by_category" t
    = Some (List.length (nodup string_dec (dropna (map category df)))) /\
  exported_records "revenue_by_channel" t
    = Some (List.length (nodup string_dec (dropna (map sales_channel df)))).
Proof.
  intros Hrun. unfold run_pipeline in Hrun.
  destruct (to_datetime parse (map transaction_date df)) as [col | e] eqn:E;
    cbn [outcome] in Hrun; [| discriminate].
  pose proof (to_datetime_length _ _ _ E) as Hlen. rewrite length_map in Hlen.
  destruct (assign_dates df col Hlen) as [_ Hother].
  destruct (assign_keeps_keys df col Hlen) as [Hcats Hchans].
  set (raw := assign_transaction_date df col) in *.
  assert (Hraw : List.length raw = List.length df).
  { rewrite <- (length_map other_fields), Hother. apply length_map. }
  destruct (analytics_tables raw t Hrun) as [Hdf [Hcs [Huc [_ [Htop [Hcat [Hch _]]]]]]].
  unfold exported_records, export_summary, frame_info, series_info.
  split; [reflexivity |].
  cbn [lookup String.eqb Ascii.eqb Bool.eqb option_map records_of].
  split; [| split; [| split; [| split]]].
  - rewrite Hdf, !length_map. now rewrite Hraw.
  - rewrite Hcs, Huc. f_equal. apply customer_stats_length.
  - eexists. split; [reflexivity |]. rewrite Htop. unfold top_products, head.
    rewrite length_firstn. lia.
  - f_equal. rewrite Hcat. unfold revenue_by_category.
    rewrite (Permutation_length (sort_values_desc_perm _ _)).
    unfold revenue_by, agg. rewrite length_map.
    rewrite (groupby_keys_length (fun e => category (base e))).
    rewrite map_map.
    change (map (fun x => category (base (enrich x))) raw) with (map category raw).
    now rewrite Hcats.
  - f_equal. rewrite Hch. unfold revenue_by_channel.
    rewrite (Permutation_length (sort_values_desc_perm _ _)).
    unfold revenue_by, agg. rewrite length_map.
    rewrite (groupby_keys_length (fun e => sales_channel (base e))).
    rewrite map_map.
    change (map (fun x => sales_channel (base (enrich x))) raw)
      with (map sales_channel raw).
    now rewrite Hchans.
Qed.

Lemma export_summary_counts_witness :
  exists t,
    outcome (run_pipeline strptime week_orders) = Ok t /\
    exported_records "sales_transactions" t = Some 3%nat /\
    exported_records "customer_segments" t = Some (t_unique_customers t).
Proof.
  eexists. split; [vm_compute; reflexivity |].
  match goal with
  | |- exported_records _ ?t = _ /\ _ =>
      destruct (export_summary_counts strptime week_orders t eq_refl)
        as [_ [Hs [Hc _]]]
  end.
  split; [exact Hs | exact Hc].
Defined.

(** ** Segment analysis *)

Lemma nodup_filter (p : string -> bool) (l : list string) :
  nodup string_dec (filter p l) = filter p (nodup string_dec l).
Proof.
  induction l as [| x l IH]; [reflexivity |].
  cbn [filter nodup].
  destruct (in_dec string_dec x l) as [Hin | Hin]; destruct (p x) eqn:Ep.
  - cbn [nodup]. destruct (in_dec string_dec x (filter p l)) as [_ | Hn]; [exact IH |].
    exfalso. apply Hn. apply filter_In. now split.
  - exact IH.
  - cbn [nodup filter]. rewrite Ep.
    destruct (in_dec string_dec x (filter p l)) as [Hf | _].
    + apply filter_In in Hf. tauto.
    + now rewrite IH.
  - cbn [filter]. now rewrite Ep.
Qed.

Lemma list_sum_add {A : Type} (f g : A -> nat) (l : list A) :
  list_sum (map (fun a => f a + g a)%nat l)
  = (list_sum (map f l) + list_sum (map g l))%nat.
Proof.
  induction l as [| a l IH]; [reflexivity |].
  cbn [map]. change (list_sum (?x :: ?r)) with (x + list_sum r)%nat.
  cbn [map list_sum fold_right] in *. lia.
Qed.

Lemma one_match (x : string) (keys : list string) :
  NoDup keys -> In x keys ->
  list_sum (map (fun s => if String.eqb x s then 1 else 0)%nat keys) = 1%nat.
Proof.
  induction 1 as [| k keys Hk _ IH]; [contradiction |].
  cbn [map list_sum fold_right]. intros [<- | Hin].
  - rewrite String.eqb_refl.
    assert (Hz : list_sum (map (fun s => if String.eqb k s then 1 else 0)%nat keys) = 0%nat).
    { clear IH. induction keys as [| s keys IHk]; [reflexivity |].
      cbn [map list_sum fold_right].
      destruct (String.eqb_spec k s) as [-> | _].
      - exfalso. apply Hk. now left.
      - cbn. apply IHk. intros H. apply Hk. now right. }
    unfold list_sum in Hz. rewrite Hz. reflexivity.
  - destruct (String.eqb_spec x k) as [-> | _]; [contradiction |].
    cbn. now apply IH.
Qed.

(** Rows that are spread over classes by a function of the row count once
    each. *)
Lemma partition_count (f : string -> string) (keys rows : list string) :
  NoDup keys -> (forall c, In c rows -> In (f c) keys) ->
  list_sum (map (fun s => List.length (filter (fun c => String.eqb (f c) s) rows)) keys)
  = List.length rows.
Proof.
  intros Hnd. induction rows as [| c rows IH]; intros Hin.
  - cbn [filter List.length]. induction keys; [reflexivity |].
    cbn [map list_sum fold_right]. inversion Hnd; subst.
    cbn. apply IHkeys; [assumption | intros ? []].
  - rewrite (map_ext _ (fun s => (if String.eqb (f c) s then 1 else 0)
                                 + List.length (filter (fun c => String.eqb (f c) s) rows))%nat).
    + rewrite (list_sum_add (fun s => if String.eqb (f c) s then 1 else 0)%nat).
      rewrite (one_match (f c) keys Hnd (Hin c (or_introl eq_refl))).
      rewrite IH; [reflexivity |]. intros x Hx. apply Hin. now right.
    + intros s. cbn [filter]. destruct (String.eqb (f c) s); reflexivity.
Qed.

Lemma merge_segment_rows (df : list enriched) (cs : list (string * customer_row)) :
  Forall (fun es => exists c, customer_key (fst es) = Some c /\ snd es = segment_of cs c)
         (merge_segment df cs).
Proof.
  induction df as [| e df IH]; cbn [merge_segment]; [constructor |].
  destruct (customer_id (base e)) as [c |] eqn:Ec; [| exact IH].
  destruct (lookup c cs) as [row |] eqn:El; [| exact IH].
  constructor; [| exact IH].
  exists c. cbn. unfold segment_of. rewrite El. split; [exact Ec | reflexivity].
Qed.

Lemma segment_group_customers (cs : list (string * customer_row)) (s : string)
    (joined : list (enriched * string)) :
  Forall (fun es => exists c, customer_key (fst es) = Some c /\ snd es = segment_of cs c)
         joined ->
  dropna (map customer_key
              (map fst (filter (fun es => option_string_eqb (Some (snd es)) (Some s)) joined)))
  = filter (fun c => String.eqb (segment_of cs c) s)
           (dropna (map customer_key (map fst joined))).
Proof.
  induction 1 as [| es joined [c [Hc Hs]] _ IH]; [reflexivity |].
  cbn [filter map option_string_eqb]. rewrite Hc, Hs. cbn [dropna filter].
  destruct (String.eqb (segment_of cs c) s).
  - cbn [map]. rewrite Hc. cbn [dropna]. f_equal. exact IH.
  - exact IH.
Qed.

Lemma dropna_keyed (df : list enriched) :
  dropna (map customer_key (keyed customer_key df)) = dropna (map customer_key df).
Proof.
  unfold keyed. induction df as [| e df IH]; [reflexivity |].
  cbn [filter map]. destruct (customer_key e) eqn:E; cbn [isnull negb].
  - cbn [map]. rewrite E. cbn [dropna]. now rewrite IH.
  - cbn [dropna]. exact IH.
Qed.

(** X21: in segment_analysis the segments come in ascending order of their
    label, and the customer counts of the segments add up to
    unique_customers: every customer is counted in exactly one segment. *)
Theorem segment_customers_partition (df : list enriched) :
  let tbl := segment_analysis df (customer_stats df) in
  StronglySorted (key_lt str_cmp) (map fst tbl) /\
  list_sum (customers_column tbl) = KPI.unique_customers df.
Proof.
  cbn zeta. set (cs := customer_stats df).
  set (joined := merge_segment df cs).
  set (gs := groupby str_cmp (fun es : enriched * string => Some (snd es)) joined).
  assert (Hsorted : StronglySorted (key_lt str_cmp) (map fst gs)).
  { exact (groupby_sorted str_cmp _ str_cmp_trans str_cmp_gt joined). }
  assert (Hkeys : map fst (segment_analysis df cs) = map fst gs).
  { unfold segment_analysis, agg. now rewrite map_map. }
  split; [now rewrite Hkeys |].
  pose proof (merge_segment_rows df cs) as Hrows. fold joined in Hrows.
  set (all := dropna (map customer_key (map fst joined))).
  assert (Hcol : customers_column (segment_analysis df cs)
                 = map (fun s => List.length
                                   (filter (fun c => String.eqb (segment_of cs c) s)
                                           (nodup string_dec all)))
                       (map fst gs)).
  { unfold customers_column, segment_analysis, agg. fold joined. fold gs.
    rewrite !map_map. apply map_ext_in. intros [s rows] Hin.
    cbn [fst snd aggregate_stats g_customers]. unfold nunique.
    destruct (groupby_str_rows _ joined s rows Hin) as [Hr _].
    pose proof (segment_group_customers cs s joined Hrows) as Hseg.
    rewrite <- nodup_filter. unfold all. rewrite <- Hseg, Hr. reflexivity. }
  rewrite Hcol, partition_count.
  - unfold KPI.unique_customers, nunique, all, joined, cs.
    rewrite merge_rows, dropna_keyed. reflexivity.
  - exact (sorted_keys_nodup str_cmp str_cmp_refl _ Hsorted).
  - intros c Hc. apply nodup_In in Hc. unfold all in Hc.
    apply in_dropna in Hc. rewrite map_map in Hc. apply in_map_iff in Hc.
    destruct Hc as [es [Hkey Hin]].
    rewrite Forall_forall in Hrows. destruct (Hrows es Hin) as [c' [Hc' Hs]].
    assert (c' = c) by congruence. subst c'.
    rewrite <- Hs.
    apply (groupby_keys str_cmp _ str_cmp_eq joined (snd es)).
    apply in_map_iff. now exists es.
Qed.

(** ** The category by channel matrix *)

Lemma in_cell_has_keys (c ch : string) (e : enriched) :
  in_cell c ch e = true -> has_keys e = true.
Proof.
  unfold in_cell, has_keys. intros H. apply andb_true_iff in H. destruct H as [H1 H2].
  destruct (category (base e)); [| discriminate].
  destruct (sales_channel (base e)); [reflexivity | discriminate].
Qed.

Lemma filter_in_cell (c ch : string) (df : list enriched) :
  filter (in_cell c ch) (filter has_keys df) = filter (in_cell c ch) df.
Proof.
  induction df as [| e df IH]; [reflexivity |].
  cbn [filter]. destruct (has_keys e) eqn:Ek; cbn [filter].
  - now rewrite IH.
  - destruct (in_cell c ch e) eqn:Ec; [| exact IH].
    apply in_cell_has_keys in Ec. congruence.
Qed.

Lemma round2_zero : round2 0 == 0.
Proof. reflexivity. Qed.

(** X22: category_matrix is rectangular: its rows are the categories in
    ascending order, every row has one cell for each sales channel in the
    same ascending order, and a cell holds the rounded revenue of the
    records of that category and channel, which is 0 when there is none;
    only records that have both a category and a channel are counted. *)
Theorem category_matrix_shape (df : list enriched) :
  let rows := filter has_keys df in
  let chans := map fst (groupby str_cmp channel_key rows) in
  StronglySorted (key_lt str_cmp) (map fst (category_matrix df)) /\
  StronglySorted (key_lt str_cmp) chans /\
  (forall c, In c (map fst (category_matrix df)) <-> In (Some c) (map category_key rows)) /\
  (forall ch, In ch chans <-> In (Some ch) (map channel_key rows)) /\
  Forall (fun row =>
            map fst (snd row) = chans /\
            Forall (fun cell => snd cell == cell_revenue df (fst row) (fst cell)) (snd row))
         (category_matrix df).
Proof.
  cbn zeta. set (rows := filter has_keys df).
  assert (Hcats : map fst (category_matrix df)
                  = map fst (groupby str_cmp category_key rows)).
  { unfold category_matrix. fold rows. rewrite map_map. cbn [fst]. apply map_id. }
  repeat split.
  - rewrite Hcats. exact (groupby_sorted str_cmp category_key str_cmp_trans str_cmp_gt rows).
  - exact (groupby_sorted str_cmp channel_key str_cmp_trans str_cmp_gt rows).
  - rewrite Hcats. apply (groupby_keys str_cmp category_key str_cmp_eq).
  - rewrite Hcats. apply (groupby_keys str_cmp category_key str_cmp_eq).
  - apply (groupby_keys str_cmp channel_key str_cmp_eq).
  - apply (groupby_keys str_cmp channel_key str_cmp_eq).
  - unfold category_matrix. fold rows. apply Forall_map, Forall_forall.
    intros c _. cbn [fst snd]. split.
    + rewrite map_map. fold channel_key.
      transitivity (map (fun x : string => x) (map fst (groupby str_cmp channel_key rows)));
        [| apply map_id].
      apply map_ext. intros ch.
      destruct (filter (in_cell c ch) rows); reflexivity.
    + apply Forall_map, Forall_forall. intros ch _. cbn beta.
      assert (Hcell : cell_revenue df c ch
                      = round2 (sum_skipna (amounts (filter (in_cell c ch) rows)))).
      { unfold cell_revenue, rows. now rewrite filter_in_cell. }
      destruct (filter (in_cell c ch) rows) eqn:Ef; cbn [fst snd];
        rewrite Hcell; [symmetry; exact round2_zero | reflexivity].
Qed.
